(** * Morrowland: the archetype report service (app.py)

    A shallow embedding of [app.py]: the paragraph scanner that recovers the
    archetype narratives from the source document, the archetype registry
    loader, the one-time access-code store and the two report routes, with
    the properties the specification states about them.

    Conventions of the embedding.
    - A Python [str] is the list of its code points ([list N]); literals are
      written with [py "..."], which is exact for ASCII text.
    - A Python [dict] with string keys is a finite map ([gmap]); no property
      below depends on iteration order.
    - A value that may be [None] is an [option]; Python truthiness of such a
      value is [truthy].
    - A call that may raise returns an [outcome]. *)

From Stdlib Require Import NArith Ascii String Decimal.
From Stdlib.Strings Require Import Byte.
From stdpp Require Import base option list gmap.

Local Open Scope N_scope.
Local Open Scope list_scope.

(** ** Strings *)

Abbreviation str := (list N).

Definition py (s : string) : str := N_of_ascii <$> list_ascii_of_string s.

(** [str.isspace] of one character; [re]'s [\s] on [str] patterns and
    [str.strip()] use the same table. *)
Definition isspace (c : N) : bool :=
  ((9 <=? c) && (c <=? 13)) || ((28 <=? c) && (c <=? 32))
  || (c =? 133) || (c =? 160) || (c =? 5760)
  || ((8192 <=? c) && (c <=? 8202))
  || (c =? 8232) || (c =? 8233) || (c =? 8239) || (c =? 8287) || (c =? 12288).

Fixpoint lstrip (s : str) : str :=
  match s with
  | c :: s' => if isspace c then lstrip s' else s
  | [] => []
  end.

Definition rstrip (s : str) : str := reverse (lstrip (reverse s)).

(** [s.strip()] *)
Definition strip (s : str) : str := rstrip (lstrip s).

(** [sep.join(parts)] *)
Fixpoint join (sep : str) (parts : list str) : str :=
  match parts with
  | [] => []
  | [p] => p
  | p :: ps => p ++ sep ++ join sep ps
  end.

Definition is_ascii_upper (c : N) : bool := (65 <=? c) && (c <=? 90).
Definition is_ascii_lower (c : N) : bool := (97 <=? c) && (c <=? 122).

(** Lower-casing of one character as [str.lower] does it.  The table is
    exact on ASCII and on the two characters outside ASCII whose lower case
    contains an ASCII letter (U+0130, which becomes [i] followed by U+0307,
    and the Kelvin sign U+212A); every other character is left as it is,
    so the result agrees with Python whenever it is compared with an ASCII
    string or computed on what [header_re] can capture. *)
Definition lower_char (c : N) : str :=
  if is_ascii_upper c then [c + 32]
  else if c =? 304 then [105; 775]
  else if c =? 8490 then [107]
  else [c].

(** [s.lower()] *)
Definition lower (s : str) : str := s ≫= lower_char.

(** Upper-casing of one character, exact on ASCII and on the characters
    [header_re] can capture (U+0131 and U+017F become [I] and [S]). *)
Definition upper_char (c : N) : str :=
  if is_ascii_lower c then [c - 32]
  else if c =? 305 then [73]
  else if c =? 383 then [83]
  else [c].

(** [s.upper()] *)
Definition upper (s : str) : str := s ≫= upper_char.

(** [s.capitalize()]: first character upper-cased, the rest lower-cased. *)
Definition capitalize (s : str) : str :=
  match s with
  | [] => []
  | c :: s' => upper_char c ++ lower s'
  end.

(** [s.replace(old, new)] for a one-character [old]. *)
Definition replace_char (old : N) (new : str) (s : str) : str :=
  s ≫= (fun c => if c =? old then new else [c]).

Fixpoint is_prefix (p s : str) : bool :=
  match p, s with
  | [], _ => true
  | a :: p', b :: s' => (a =? b) && is_prefix p' s'
  | _ :: _, [] => false
  end.

(** [needle in hay] on strings. *)
Fixpoint contains (needle hay : str) : bool :=
  is_prefix needle hay ||
  match hay with
  | [] => false
  | _ :: hay' => contains needle hay'
  end.

Fixpoint digits_of_uint (d : Decimal.uint) : str :=
  match d with
  | Decimal.Nil => []
  | Decimal.D0 d' => 48 :: digits_of_uint d'
  | Decimal.D1 d' => 49 :: digits_of_uint d'
  | Decimal.D2 d' => 50 :: digits_of_uint d'
  | Decimal.D3 d' => 51 :: digits_of_uint d'
  | Decimal.D4 d' => 52 :: digits_of_uint d'
  | Decimal.D5 d' => 53 :: digits_of_uint d'
  | Decimal.D6 d' => 54 :: digits_of_uint d'
  | Decimal.D7 d' => 55 :: digits_of_uint d'
  | Decimal.D8 d' => 56 :: digits_of_uint d'
  | Decimal.D9 d' => 57 :: digits_of_uint d'
  end.

(** [str(i)] for a non-negative [int]. *)
Definition str_of_nat (i : nat) : str := digits_of_uint (Nat.to_uint i).

(** Truthiness of a value that is [None] or a string. *)
Definition truthy (o : option str) : bool :=
  match o with
  | Some (_ :: _) => true
  | _ => false
  end.

(** [a or b] on such values. *)
Definition py_or (a b : option str) : option str :=
  if truthy a then a else b.

(** [a or b] where [b] is a string. *)
Definition or_str (a : option str) (b : str) : str :=
  match a with
  | Some (c :: s) => c :: s
  | _ => b
  end.

(** ** Outcomes of calls that may raise *)

Inductive exn : Type :=
| JSONDecodeError
| OSError
| PackageNotFoundError.

Inductive outcome (A : Type) : Type :=
| Ok (a : A)
| Raise (e : exn).
Arguments Ok {A} a.
Arguments Raise {A} e.

#[global] Instance exn_eq_dec : EqDecision exn.
Proof. solve_decision. Defined.

#[global] Instance outcome_eq_dec {A} `{EqDecision A} : EqDecision (outcome A).
Proof. solve_decision. Defined.

(** ** Regular expressions

    The two patterns of the scanner are written in the syntax below and run
    by a backtracking matcher that tries alternatives in the order [re]
    does (greedy repetition takes one more first, lazy repetition stops
    first), so that the groups captured are the ones [re] reports. *)

Module Re.

Inductive regex : Type :=
| Empty                         (* the empty pattern *)
| Ci (c : N)                    (* a lower-case letter under (?i) *)
| OneOf (cs : list N)           (* [...] over characters without case *)
| Space                         (* \s *)
| Dot                           (* .  (no DOTALL: not a newline) *)
| Cat (r1 r2 : regex)           (* r1 r2 *)
| Or (r1 r2 : regex)            (* r1|r2 *)
| Opt (r : regex)               (* r? *)
| Star (r : regex)              (* r* *)
| LazyStar (r : regex)          (* r*? *)
| Group (g : nat) (r : regex)   (* (r), numbered g *)
| Bos                           (* ^  (no MULTILINE) *)
| Eos.                          (* $  (no MULTILINE) *)

(** r+? *)
Definition LazyPlus (r : regex) : regex := Cat r (LazyStar r).

(** A sequence of patterns, left to right. *)
Fixpoint cat (rs : list regex) : regex :=
  match rs with
  | [] => Empty
  | [r] => r
  | r :: rs' => Cat r (cat rs')
  end.

(** A word of the pattern, letter by letter. *)
Definition word (cs : str) : regex := cat (Ci <$> cs).

(** Lower case of a subject character as [re] takes it under IGNORECASE
    (one character to one character). *)
Definition sre_lower (c : N) : N :=
  if is_ascii_upper c then c + 32
  else if c =? 304 then 105
  else if c =? 8490 then 107
  else c.

(** Whether subject character [ch] matches the pattern letter [c] (one of
    [a]..[z]) under IGNORECASE: equal after lower-casing, or one of the two
    extra pairs [re] adds for [i] (dotless i, U+0131) and [s] (long s,
    U+017F). *)
Definition ci_match (c ch : N) : bool :=
  (sre_lower ch =? c)
  || ((c =? 105) && (ch =? 305))
  || ((c =? 115) && (ch =? 383)).

Record cursor : Type := Cursor {
  pos : nat;                    (* characters consumed so far *)
  rest : str;                   (* what is left of the subject *)
  caps : list (nat * str)       (* groups closed so far, latest first *)
}.

Definition step (p : N -> bool) (cu : cursor)
    (k : cursor -> option (list (nat * str))) : option (list (nat * str)) :=
  match rest cu with
  | ch :: s' => if p ch then k (Cursor (S (pos cu)) s' (caps cu)) else None
  | [] => None
  end.

Definition orelse {A} (a b : option A) : option A :=
  match a with
  | Some x => Some x
  | None => b
  end.

Definition progress (before after : cursor) : bool :=
  (length (rest after) <? length (rest before))%nat.

Fixpoint run (r : regex) (cu : cursor)
    (k : cursor -> option (list (nat * str))) {struct r}
    : option (list (nat * str)) :=
  match r with
  | Empty => k cu
  | Ci c => step (ci_match c) cu k
  | OneOf cs => step (fun ch => existsb (N.eqb ch) cs) cu k
  | Space => step isspace cu k
  | Dot => step (fun ch => negb (ch =? 10)) cu k
  | Cat r1 r2 => run r1 cu (fun cu' => run r2 cu' k)
  | Or r1 r2 => orelse (run r1 cu k) (run r2 cu k)
  | Opt r1 => orelse (run r1 cu k) (k cu)
  | Star r1 =>
      (fix star (n : nat) (cu : cursor) {struct n} :=
         match n with
         | O => k cu
         | S n' =>
             orelse
               (run r1 cu (fun cu' =>
                  if progress cu cu' then star n' cu' else None))
               (k cu)
         end) (length (rest cu)) cu
  | LazyStar r1 =>
      (fix lazy (n : nat) (cu : cursor) {struct n} :=
         orelse (k cu)
           match n with
           | O => None
           | S n' =>
               run r1 cu (fun cu' =>
                 if progress cu cu' then lazy n' cu' else None)
           end) (length (rest cu)) cu
  | Group g r1 =>
      run r1 cu (fun cu' =>
        let got := take (length (rest cu) - length (rest cu')) (rest cu) in
        k (Cursor (pos cu') (rest cu') ((g, got) :: caps cu')))
  | Bos => if (pos cu =? 0)%nat then k cu else None
  | Eos =>
      match rest cu with
      | [] => k cu
      | [10] => k cu
      | _ => None
      end
  end.

Definition accept (cu : cursor) : option (list (nat * str)) := Some (caps cu).

(** [r.match(s)]: a match starting at the first character. *)
Definition match_ (r : regex) (s : str) : option (list (nat * str)) :=
  run r (Cursor 0 s []) accept.

Fixpoint search_from (r : regex) (p : nat) (s : str)
    : option (list (nat * str)) :=
  match run r (Cursor p s []) accept with
  | Some m => Some m
  | None =>
      match s with
      | [] => None
      | _ :: s' => search_from r (S p) s'
      end
  end.

(** [r.search(s)]: the match at the leftmost start that has one. *)
Definition search (r : regex) (s : str) : option (list (nat * str)) :=
  search_from r 0 s.

(** [m.group(g)] for a group that took part in the match (every group of
    the two patterns below does). *)
Fixpoint group (g : nat) (m : list (nat * str)) : str :=
  match m with
  | [] => []
  | (g', s) :: m' => if (g' =? g)%nat then s else group g m'
  end.

(** [m.groups()] for a pattern with [n] groups. *)
Definition groups (n : nat) (m : list (nat * str)) : list str :=
  (fun g => group g m) <$> seq 1 n.

End Re.

(** ** 1. The paragraph scanner ([load_detailed_archetypes_docx]) *)

Import Re.

(** [[:\-–—]]: colon, hyphen, en dash (U+2013), em dash (U+2014). *)
Definition separator : regex := OneOf [58; 45; 8211; 8212].

(** [(low|medium|high)] as group [g]. *)
Definition level (g : nat) : regex :=
  Group g (Or (word (py "low")) (Or (word (py "medium")) (word (py "high")))).

(** [name\s*[:\-–—]?\s*(low|medium|high)] *)
Definition trait (name : string) (g : nat) : regex :=
  cat [word (py name); Star Space; Opt separator; Star Space; level g].

Definition header_re : regex :=
  cat [trait "openness" 1; LazyStar Dot;
       trait "conscientiousness" 2; LazyStar Dot;
       trait "extraversion" 3; LazyStar Dot;
       trait "agreeableness" 4; LazyStar Dot;
       trait "neuroticism" 5].

(** [(?i)^archetype\s*[:\-–—]?\s*(.+?)\s*$] *)
Definition archetype_re : regex :=
  cat [Bos; word (py "archetype"); Star Space; Opt separator; Star Space;
       Group 1 (LazyPlus Dot); Star Space; Eos].

(** The scanner's variables: the two result maps and the three [nonlocal]
    variables [flush] works on. *)
Record scanner : Type := Scanner {
  by_code : gmap str str;
  by_name : gmap str str;
  current_code : option str;
  current_name : option str;
  buffer : list str
}.

(** [flush()]; [default [] o] is the string held by a truthy [o]. *)
Definition flush (st : scanner) : scanner :=
  if truthy (current_code st) && bool_decide (buffer st ≠ []) then
    let text := strip (join [10] (buffer st)) in
    let code := default [] (current_code st) in
    Scanner (<[code := text]> (by_code st))
            (if truthy (current_name st)
             then <[default [] (current_name st) := text]> (by_name st)
             else by_name st)
            (current_code st) (current_name st) []
  else
    Scanner (by_code st) (by_name st) (current_code st) (current_name st) [].

(** [f"{O}-{C}-{E}-{A}-{N_}"] over the capitalised groups. *)
Definition code_of_groups (gs : list str) : str :=
  join [45] (capitalize <$> gs).

(** What a paragraph of the document is at load time: [raw_lines] holds the
    paragraph texts, [lines] the same texts stripped. *)
Section Scan.

Variable raw_lines : list str.

Definition lines : list str := strip <$> raw_lines.

(** The [for j in range(1, 4)] loop after a header at index [i]: the name
    found and the new value of [i], if a paragraph in the window is an
    archetype label; the loop stops at the end of the document. *)
Fixpoint lookahead (js : list nat) (i : nat) : option (str * nat) :=
  match js with
  | [] => None
  | j :: js' =>
      match lines !! (i + j)%nat with
      | None => None
      | Some l =>
          match match_ archetype_re (strip l) with
          | Some m_name => Some (strip (group 1 m_name), (i + j)%nat)
          | None => lookahead js' i
          end
      end
  end.

(** One turn of the [while i < n] loop at index [i] on paragraph [line]
    (raw text [raw]): the new variables and the index to continue at. *)
Definition turn (i : nat) (line raw : str) (st : scanner) : nat * scanner :=
  match search header_re line with
  | Some m_header =>
      let st := flush st in
      let code := code_of_groups (groups 5 m_header) in
      let '(name, i) :=
        match lookahead [1; 2; 3]%nat i with
        | Some (name, i') => (Some name, i')
        | None => (None, i)
        end in
      let name :=
        if truthy name then name
        else Some (py "Unknown_" ++ str_of_nat i) in
      (S i, Scanner (by_code st) (by_name st) (Some code) name (buffer st))
  | None =>
      (S i,
       if truthy (current_code st)
       then Scanner (by_code st) (by_name st) (current_code st)
                    (current_name st) (buffer st ++ [raw])
       else st)
  end.

(** The [while i < n] loop; [None] only if [fuel] turns do not reach the
    end of the document ([scan_terminates]: [n] turns always do). *)
Fixpoint scan (fuel : nat) (i : nat) (st : scanner) : option scanner :=
  match lines !! i, raw_lines !! i with
  | Some line, Some raw =>
      match fuel with
      | O => None
      | S fuel' => let '(i', st') := turn i line raw st in scan fuel' i' st'
      end
  | _, _ => Some st
  end.

(** The scan of a document that exists: both maps after the last
    [flush()]. *)
Definition extract : option (gmap str str * gmap str str) :=
  st ← scan (length lines) 0 (Scanner ∅ ∅ None None []);
  let st := flush st in
  Some (by_code st, by_name st).

End Scan.

(** What sits at a path the scanner is pointed at: nothing, something the
    [docx] package cannot open, or a document with its paragraph texts. *)
Inductive docx_file : Type :=
| NoFile
| NotDocx
| Docx (paragraphs : list str).

(** [os.path.exists(file_path)] *)
Definition path_exists (f : docx_file) : bool :=
  match f with
  | NoFile => false
  | _ => true
  end.

(** [load_detailed_archetypes_docx(file_path)] on a disk given as a
    function from paths.  [None] would be a scan that does not end; there
    is none ([load_detailed_archetypes_docx_returns]). *)
Definition load_detailed_archetypes_docx
    (disk : str -> docx_file) (file_path : str)
    : option (outcome (gmap str str * gmap str str)) :=
  if negb (path_exists (disk file_path)) then Some (Ok (∅, ∅))
  else
    match disk file_path with
    | Docx paragraphs => Ok <$> extract paragraphs
    | _ => Some (Raise PackageNotFoundError)
    end.

(** ** 4. The archetype registry ([load_archetypes]) *)

#[local] Set Warnings "-register-all".

(** A value [json.load] returns; an object keeps its members in file
    order, one per key. *)
Inductive json : Type :=
| JNull
| JBool (b : bool)
| JNumber (lexeme : str)
| JString (s : str)
| JArray (items : list json)
| JObject (members : list (str * json)).

#[local] Set Warnings "+register-all".

(** What sits at a path the loader looks at: nothing, a file that cannot be
    opened or does not parse ([open] or [json.load] raises [e]), or a file
    holding one JSON value. *)
Inductive json_file : Type :=
| Missing
| Broken (e : exn)
| Holds (data : json).

(** [isinstance(data, dict) and data] *)
Definition nonempty_dict (data : json) : option (list (str * json)) :=
  match data with
  | JObject (m :: ms) => Some (m :: ms)
  | _ => None
  end.

Definition fallback_archetypes : list (str * json) :=
  [(py "Low-Low-Low-Low-Low", JString (py "Aquashine"))].

Section Registry.

(** The working directory, as a function from file names. *)
Variable cwd : str -> json_file.

(** The [for file in [...]] loop. *)
Fixpoint load_first (files : list str) : outcome (list (str * json)) :=
  match files with
  | [] => Ok fallback_archetypes
  | file :: files' =>
      match cwd file with
      | Missing => load_first files'
      | Broken e => Raise e
      | Holds data =>
          match nonempty_dict data with
          | Some d => Ok d
          | None => load_first files'
          end
      end
  end.

Definition candidates : list str :=
  [py "archetypes_full.json"; py "archetypes.json"].

(** [load_archetypes()] *)
Definition load_archetypes : outcome (list (str * json)) :=
  load_first candidates.

End Registry.

(** ** 5. One-time free access codes *)

(** One entry of [free_codes.json]: [{"used": ...}]. *)
Record entry : Type := Entry { used : bool }.

(** The part of the outside world the routes act on: [free_codes.json]
    ([None] while the file does not exist; otherwise the mapping it holds,
    which only this program writes) and, for stating what is written, the
    payload of every [save_free_codes] so far, oldest first. *)
Record world : Type := World {
  free_codes_file : option (gmap str entry);
  saves : list (gmap str entry)
}.

(** [load_free_codes()] *)
Definition load_free_codes (w : world) : gmap str entry :=
  match free_codes_file w with
  | Some codes => codes
  | None => ∅
  end.

(** [save_free_codes(codes)] *)
Definition save_free_codes (codes : gmap str entry) (w : world) : world :=
  World (Some codes) (saves w ++ [codes]).

Definition hex_digit (d : N) : N := if d <? 10 then 48 + d else 87 + d.

(** [secrets.token_hex(n)] on the [n] random bytes the system hands out. *)
Definition token_hex (random : list byte) : str :=
  random ≫= (fun b => [hex_digit (Byte.to_N b / 16);
                       hex_digit (Byte.to_N b mod 16)]).

(** The four random bytes of one [secrets.token_hex(4)]. *)
Definition entropy : Type := byte * byte * byte * byte.

Definition new_code (e : entropy) : str :=
  let '(b0, b1, b2, b3) := e in upper (token_hex [b0; b1; b2; b3]).

(** [generate_free_code()], given the random bytes drawn. *)
Definition generate_free_code (e : entropy) (w : world) : str * world :=
  let code := new_code e in
  let codes := load_free_codes w in
  let codes := <[code := Entry false]> codes in
  (code, save_free_codes codes w).

(** [verify_free_code(code)] *)
Definition verify_free_code (code : str) (w : world) : bool * world :=
  let codes := load_free_codes w in
  match codes !! code with
  | Some e =>
      if negb (used e) then
        let codes := <[code := Entry true]> codes in
        (true, save_free_codes codes w)
      else (false, w)
  | None => (false, w)
  end.

(** A sequence of calls on the store, for stating what holds over time. *)
Inductive call : Type :=
| Verify (code : str)
| Generate (e : entropy).

(** The calls in order, with the world after them and the answer of each
    [Verify], oldest first. *)
Fixpoint calls (cs : list call) (w : world) : list (str * bool) * world :=
  match cs with
  | [] => ([], w)
  | Verify code :: cs' =>
      let '(ok, w') := verify_free_code code w in
      let '(log, w'') := calls cs' w' in
      ((code, ok) :: log, w'')
  | Generate e :: cs' =>
      let '(_, w') := generate_free_code e w in
      calls cs' w'
  end.

(** How many of the logged [Verify] calls for [code] succeeded. *)
Definition successes (code : str) (log : list (str * bool)) : nat :=
  length (filter (fun r => r = (code, true)) log).

(** ** 7. Routes *)

(** A request: its query parameters in the order of the query string. *)
Record request : Type := Request { args : list (str * str) }.

(** [request.args.get(key, default)]: the first value given for [key]. *)
Fixpoint args_get (key default : str) (a : list (str * str)) : str :=
  match a with
  | [] => default
  | (k, v) :: a' => if bool_decide (k = key) then v else args_get key default a'
  end.

(** The variables handed to [detailed_report.html]. *)
Record context : Type := Context {
  archetype : str;
  traits : str;
  subtype : str;
  sections : list (str * str);
  quote : str
}.

(** A document built with the [docx] package, block by block. *)
Inductive block : Type :=
| Heading (text : str) (level : nat)
| Paragraph (text : str).

Definition block_text (b : block) : str :=
  match b with
  | Heading text _ => text
  | Paragraph text => text
  end.

Inductive response : Type :=
| Page (body : str)
| SendFile (body : list block) (as_attachment : bool)
           (download_name mimetype : str).

(** Whether some block of the document holds [text]. *)
Definition document_contains (text : str) (body : list block) : bool :=
  existsb (fun b => contains text (block_text b)) body.

Definition preview_message : str :=
  py "Preview only. Purchase or use a free code to unlock the full report.".

Definition docx_mimetype : str :=
  py "application/vnd.openxmlformats-officedocument.wordprocessingml.document".

Section App.

(** The module-level tables built at start-up.  The routes use the
    registry's values as display names (strings). *)
Variable DETAILED_BY_CODE DETAILED_BY_NAME : gmap str str.
Variable ARCHETYPES : gmap str str.

(** [render_template]: the templates are not part of [app.py]; a page is
    whatever the named template makes of the variables it is given and of
    the request, which Flask hands to every template. *)
Variable render_template : str -> request -> context -> str.

(** The variables [api_render_report] computes for the template. *)
Definition report_context (req : request) : context :=
  let code := args_get (py "code") [] (args req) in
  let paid :=
    bool_decide (lower (args_get (py "paid") [] (args req)) = py "true") in
  let detailed_text := DETAILED_BY_CODE !! code in
  let archetype_name : option str := None in
  let '(archetype_name, detailed_text) :=
    if negb (truthy detailed_text) then
      match ARCHETYPES !! code with
      | Some name => (Some name, DETAILED_BY_NAME !! name)
      | None => (archetype_name, detailed_text)
      end
    else (archetype_name, detailed_text) in
  let detailed_text := or_str detailed_text (py "Detailed report not found.") in
  let archetype_name :=
    if negb (truthy archetype_name) then
      match ARCHETYPES !! code with
      | Some name => Some name
      | None => archetype_name
      end
    else archetype_name in
  let sections :=
    if paid then [(py "Detailed Report", detailed_text)]
    else [(py "Summary", preview_message)] in
  let subtype := if paid then py "N/A" else py "Locked" in
  Context (or_str archetype_name (py "Unknown")) code subtype sections
    ([8220] ++ py "Depth rewards patience." ++ [8221]).

(** [api_render_report()] *)
Definition api_render_report (req : request) (w : world) : response * world :=
  (Page (render_template (py "detailed_report.html") req (report_context req)),
   w).

(** [download_report()], as far as its own code goes: the document it
    builds and the attachment it asks [send_file] for.  The calls into the
    [docx] package and [send_file] can raise; [download_report_checked]
    below is the route with those refusals. *)
Definition download_report (req : request) (w : world) : response * world :=
  let code := args_get (py "code") [] (args req) in
  let name := default (py "Unknown") (ARCHETYPES !! code) in
  let detailed_text :=
    py_or (DETAILED_BY_CODE !! code) (DETAILED_BY_NAME !! name) in
  let doc :=
    [Heading name 1;
     Paragraph (or_str detailed_text (py "Detailed text not found."))] in
  (SendFile doc true
     (replace_char 32 [95] name ++ py "_Detailed_Report.docx")
     docx_mimetype,
   w).

End App.

(** ** 7. Routes: the libraries under [download_report] *)

(** A character XML can hold: lxml, through which the [docx] package
    stores text, refuses NUL, the control characters other than tab, line
    feed and carriage return, the surrogates, U+FFFE and U+FFFF. *)
Definition xml_char (c : N) : bool :=
  (c =? 9) || (c =? 10) || (c =? 13)
  || ((32 <=? c) && (c <? 55296))
  || ((57344 <=? c) && (c <? 65534))
  || ((65536 <=? c) && (c <=? 1114111)).

(** Whether the [docx] package takes [s] as the text of a heading or of a
    paragraph. *)
Definition xml_compatible (s : str) : bool := forallb xml_char s.

(** Whether [send_file] takes [s] as a download name: the name goes into
    the [Content-Disposition] header, and a header value with a carriage
    return or a line feed is refused. *)
Definition header_safe (s : str) : bool :=
  forallb (λ c, negb ((c =? 10) || (c =? 13))) s.

(** The [ValueError]s of the libraries [download_report] calls. *)
Inductive value_error : Type :=
| NotXmlCompatible
| NewlineInHeader.

(** How a call of a route that builds a document ends. *)
Inductive served : Type :=
| Served (r : response)
| Raised (e : value_error).

(** [doc.add_heading(text, level)] and [doc.add_paragraph(text)]: [None]
    when the text is refused. *)
Definition add_block (b : block) (doc : list block)
    : option (list block) :=
  if xml_compatible (block_text b) then Some (doc ++ [b]) else None.

(** [send_file(output, as_attachment=..., download_name=..., mimetype=...)]
    on the saved document. *)
Definition send_file (doc : list block) (as_attachment : bool)
    (download_name mimetype : str) : served :=
  if header_safe download_name
  then Served (SendFile doc as_attachment download_name mimetype)
  else Raised NewlineInHeader.

(** [download_report()] with the refusals of the libraries it calls: the
    heading and the paragraph can be refused by the [docx] package, the
    download name by [send_file]. *)
Definition download_report_checked
    (DETAILED_BY_CODE DETAILED_BY_NAME ARCHETYPES : gmap str str)
    (req : request) (w : world) : served * world :=
  let code := args_get (py "code") [] (args req) in
  let name := default (py "Unknown") (ARCHETYPES !! code) in
  let detailed_text :=
    py_or (DETAILED_BY_CODE !! code) (DETAILED_BY_NAME !! name) in
  match add_block (Heading name 1) [] with
  | None => (Raised NotXmlCompatible, w)
  | Some doc =>
      match add_block
              (Paragraph (or_str detailed_text (py "Detailed text not found.")))
              doc with
      | None => (Raised NotXmlCompatible, w)
      | Some doc =>
          (send_file doc true
             (replace_char 32 [95] name ++ py "_Detailed_Report.docx")
             docx_mimetype,
           w)
      end
  end.

(** ** 7. Routes, the others *)

(** What the routes other than the two report routes answer. *)
Inductive reply : Type :=
| Redirect (location : str)
| Jsonify (members : list (str * json))
| Text (body : str) (status : nat).



(** What is asked of [stripe.checkout.Session.create]. *)
Record checkout : Type := Checkout {
  mode : str;
  payment_method_types : list str;
  currency : str;
  product_name : str;
  unit_amount : N;
  quantity : N;
  success_url : str;
  cancel_url : str
}.

(** What Stripe does with it: a session with its URL, or an exception,
    given here by its text. *)
Inductive stripe_result : Type :=
| Session (url : str)
| StripeError (message : str).

Section Checkout.

(** [DOMAIN] comes from the environment and Stripe is a remote service. *)
Variable DOMAIN : str.
Variable stripe_create : checkout → stripe_result.

Definition checkout_of (req : request) : checkout :=
  let code :=
    args_get (py "code") (py "Medium-Medium-Medium-Medium-Medium") (args req) in
  Checkout (py "payment") [py "card"] (py "usd")
    (py "Big 5 Detailed Archetype Report") 99 1
    (DOMAIN ++ py "/api/render-report?code=" ++ code ++ py "&paid=true")
    (DOMAIN ++ py "/").

(** [create_checkout_session()] *)
Definition create_checkout_session (req : request) (w : world) : reply * world :=
  match stripe_create (checkout_of req) with
  | Session url => (Redirect url, w)
  | StripeError e => (Text (py "Stripe session creation failed: " ++ e) 500, w)
  end.

End Checkout.

(** [next((n for n, t in DETAILED_BY_NAME.items() if t == text), "Unknown")]
    over the items of the by-name map in the order the map yields them. *)
Fixpoint first_name_with (text : str) (name_items : list (str * str)) : str :=
  match name_items with
  | [] => py "Unknown"
  | (n, t) :: rest => if bool_decide (t = text) then n else first_name_with text rest
  end.

(** What one turn of the loop of [debug_all_reports] appends. *)
Definition debug_entry (name_items : list (str * str)) (code text : str) : str :=
  py "<h2>" ++ first_name_with text name_items ++ py " (" ++ code
  ++ py ")</h2><pre>" ++ take 800 text ++ py "...</pre><hr>".

(** [debug_all_reports()], the route [/debug/all-reports], on the items of
    the two maps in the order the maps yield them. *)
Definition debug_all_reports (code_items name_items : list (str * str))
    (req : request) (w : world) : response * world :=
  (Page (foldl (λ html ct, html ++ debug_entry name_items ct.1 ct.2)
           (py "<h1>All Archetypes</h1>") code_items),
   w).

(** ** Predicates and inputs used in the statements *)

(** A disk with nothing on it. *)
Definition empty_disk (path : str) : docx_file := NoFile.

(** A disk with one document, at [morrowland 243.docx]. *)
Definition disk_with (paragraphs : list str) (path : str) : docx_file :=
  if bool_decide (path = py "morrowland 243.docx") then Docx paragraphs
  else NoFile.

(** Whether a [verify_free_code(code)] would succeed in [w]. *)
Definition redeemable (code : str) (w : world) : bool :=
  match load_free_codes w !! code with
  | Some e => negb (used e)
  | None => false
  end.

(** [code] is not issued again by any call of [cs]. *)
Definition not_reissued (code : str) (cs : list call) : Prop :=
  ∀ e, Generate e ∈ cs → new_code e ≠ code.

(** A candidate the loop passes over: not there, or holding JSON that is
    not a non-empty object. *)
Definition skipped (f : json_file) : bool :=
  match f with
  | Missing => true
  | Broken _ => false
  | Holds data => bool_decide (nonempty_dict data = None)
  end.

(** A candidate that is missing or invalid in any way: not there, not
    readable as JSON, or holding JSON that is not a non-empty object. *)
Definition missing_or_invalid (f : json_file) : bool :=
  match f with
  | Missing => true
  | Broken _ => true
  | Holds data => bool_decide (nonempty_dict data = None)
  end.

(** A working directory in which [archetypes_full.json] exists and is not
    JSON, and [archetypes.json] does not exist. *)
Definition unparsable_registry (file : str) : json_file :=
  if bool_decide (file = py "archetypes_full.json")
  then Broken JSONDecodeError
  else Missing.

(** The header line and the label line of the specification's scenario. *)
Definition scenario_header : str :=
  py "Openness: High, Conscientiousness: Low, Extraversion: Medium, Agreeableness: High, Neuroticism: Low".

Definition scenario_label : str := py "Archetype: Starlight Wanderer".

(** A source document with one archetype, whose label reads
    ["Archetype: Unknown"]. *)
Definition unknown_document : list str :=
  [scenario_header;
   py "Archetype: Unknown";
   py "A narrative filed under the name Unknown."].

Definition unknown_by_code : gmap str str :=
  {[py "High-Low-Medium-High-Low" := py "A narrative filed under the name Unknown."]}.

Definition unknown_by_name : gmap str str :=
  {[py "Unknown" := py "A narrative filed under the name Unknown."]}.

(** The built-in registry, as the routes read it. *)
Definition fallback_registry : gmap str str :=
  {[py "Low-Low-Low-Low-Low" := py "Aquashine"]}.

Definition low_header : str :=
  py "Openness: Low, Conscientiousness: Low, Extraversion: Low, Agreeableness: Low, Neuroticism: Low".

(** A header with no narrative before the next header. *)
Definition document_with_bare_header : list str :=
  [scenario_header; py "Archetype: First";
   low_header; py "Archetype: Second"; py "Body."].

(** The same code under two headers. *)
Definition document_with_repeated_code : list str :=
  [scenario_header; py "Archetype: First"; py "Old text.";
   scenario_header; py "Archetype: Second"; py "New text."].

Definition sample_template (name : str) (req : request) (c : context) : str :=
  join [10] (name :: archetype c :: traits c :: subtype c :: quote c
             :: ((λ kv, kv.1 ++ py ": " ++ kv.2) <$> sections c)).

Definition unpaid_request : request :=
  Request [(py "code", py "High-Low-Medium-High-Low"); (py "paid", py "false")].

Definition spent_code : str := py "0A1B2C3D".

Definition spent_world : world :=
  World (Some {[spent_code := Entry true]}) [].

Definition other_draw : entropy := (x00, x00, x00, x01)%byte.

Definition spent_calls : list call :=
  [Verify spent_code; Generate other_draw; Verify spent_code].

Definition fresh_draw : entropy := (x0a, x1b, x2c, x3d)%byte.

Definition fresh_calls : list call :=
  [Verify (new_code fresh_draw); Generate other_draw;
   Verify (new_code fresh_draw)].

Definition unspent_world : world :=
  World (Some {[spent_code := Entry false; py "FFFFFFFF" := Entry true]}) [].

Definition sample_preamble : list str := [py "Morrowland"; []].

Definition sample_document : list str :=
  sample_preamble ++
  [scenario_header; []; scenario_label;
   py "  You drift between worlds. "; py "You rarely settle."].

Definition idle_scanner : scanner :=
  Scanner unknown_by_code unknown_by_name
    (Some (py "Low-Low-Low-Low-Low")) (Some (py "Second")) [].

Definition loaded_scanner : scanner :=
  Scanner unknown_by_code unknown_by_name
    (Some (py "High-Low-Medium-High-Low")) (Some (py "Second"))
    [py "New text."; py "More."].

(** A working directory where [archetypes_full.json] holds an empty object
    and [archetypes.json] does not exist. *)
Definition empty_registry (file : str) : json_file :=
  if bool_decide (file = py "archetypes_full.json")
  then Holds (JObject [])
  else Missing.

Definition unknown_request : request := Request [(py "code", py "Unknown-Code")].

(** A registry whose name for the code of [unknown_document] holds a line
    feed. *)
Definition newline_registry : gmap str str :=
  {[py "High-Low-Medium-High-Low" := py "Star" ++ [10] ++ py "light"]}.

(** A code is verified, issued again and verified again. *)
Definition reissue_calls : list call :=
  [Verify spent_code; Generate fresh_draw; Verify spent_code].

(** The request of [unknown_request], paid. *)
Definition paid_unknown_request : request :=
  Request [(py "code", py "Unknown-Code"); (py "paid", py "true")].

(** A document that holds the scenario of the specification: the header
    line, a paragraph [X], the label line and two paragraphs, with the
    paragraphs [before] in front and the paragraphs [after] behind. *)
Definition scenario_document (before : list str) (X B1 B2 : str)
    (after : list str) : list str :=
  before ++ [scenario_header; X; scenario_label; B1; B2] ++ after.

(** The section is on record and the scanner is in another one. *)
Definition settled (code name text : str) (st : scanner) : Prop :=
  by_code st !! code = Some text ∧ by_name st !! name = Some text
  ∧ current_code st ≠ Some code ∧ current_name st ≠ Some name.

Definition medium_header : str :=
  py "Openness: Medium, Conscientiousness: Medium, Extraversion: Medium, Agreeableness: Medium, Neuroticism: Medium".

(** A section before the scenario and one after it. *)
Definition earlier_section : list str :=
  [py "Morrowland"; low_header; py "Archetype: Aquashine"; py "Calm water."].

Definition later_section : list str :=
  [medium_header; py "Archetype: Second"; py "Body."].

(** The scenario between two other sections, its two paragraphs with
    white space around them. *)
Definition long_document : list str :=
  earlier_section ++
  [scenario_header; []; scenario_label;
   py "  " ++ py "You drift between worlds. "; py "You rarely settle." ++ py " "] ++
  later_section.

(** The scenario, then a second section under the same header line. *)
Definition document_with_later_code : list str :=
  [scenario_header; []; scenario_label;
   py "You drift between worlds."; py "You rarely settle.";
   scenario_header; py "Archetype: Moon Walker"; py "Another text."].

(** The scenario with a label between the header line and its label. *)
Definition document_with_two_labels : list str :=
  [scenario_header; py "Archetype: Moon Walker"; scenario_label;
   py "You drift between worlds."; py "You rarely settle."].

(** The scenario with a header line right before its header line. *)
Definition document_with_two_headers : list str :=
  [low_header; scenario_header; []; scenario_label;
   py "You drift between worlds."; py "You rarely settle."].

(** ** Predicates and inputs of the further properties *)

(** The character test of a one-character pattern. *)
Definition char_test (r : regex) : option (N → bool) :=
  match r with
  | Ci c => Some (ci_match c)
  | OneOf cs => Some (λ ch, existsb (N.eqb ch) cs)
  | Space => Some isspace
  | Dot => Some (λ ch, negb (ch =? 10))
  | _ => None
  end.

(** [matches r cu cu']: pattern [r] can take the match from [cu] to [cu']. *)
Inductive matches : regex → cursor → cursor → Prop :=
| M_Empty cu : matches Empty cu cu
| M_Char r p cu ch s' :
    char_test r = Some p → rest cu = ch :: s' → p ch = true →
    matches r cu (Cursor (S (pos cu)) s' (caps cu))
| M_Cat r1 r2 cu cu1 cu2 :
    matches r1 cu cu1 → matches r2 cu1 cu2 → matches (Cat r1 r2) cu cu2
| M_OrL r1 r2 cu cu' : matches r1 cu cu' → matches (Or r1 r2) cu cu'
| M_OrR r1 r2 cu cu' : matches r2 cu cu' → matches (Or r1 r2) cu cu'
| M_OptSome r cu cu' : matches r cu cu' → matches (Opt r) cu cu'
| M_OptNone r cu : matches (Opt r) cu cu
| M_StarNil r cu : matches (Star r) cu cu
| M_StarCons r cu cu1 cu2 :
    matches r cu cu1 → matches (Star r) cu1 cu2 → matches (Star r) cu cu2
| M_LazyNil r cu : matches (LazyStar r) cu cu
| M_LazyCons r cu cu1 cu2 :
    matches r cu cu1 → matches (LazyStar r) cu1 cu2 →
    matches (LazyStar r) cu cu2
| M_Group g r cu cu' :
    matches r cu cu' →
    matches (Group g r) cu
      (Cursor (pos cu') (rest cu')
         ((g, take (length (rest cu) - length (rest cu')) (rest cu)) :: caps cu'))
| M_Bos cu : pos cu = 0%nat → matches Bos cu cu
| M_Eos cu : rest cu = [] ∨ rest cu = [10] → matches Eos cu cu.

(** What a match from [cu] to [cu'] has consumed. *)
Definition taken (cu cu' : cursor) : str :=
  take (length (rest cu) - length (rest cu')) (rest cu).

(** Patterns without a group. *)
Fixpoint groupless (r : regex) : bool :=
  match r with
  | Cat r1 r2 | Or r1 r2 => groupless r1 && groupless r2
  | Opt r1 | Star r1 | LazyStar r1 => groupless r1
  | Group _ _ => false
  | _ => true
  end.

Definition is_ascii (s : str) : bool := forallb (λ c, c <? 128) s.

Definition levels : list str := [py "Low"; py "Medium"; py "High"].

(** The 243 codes: five levels joined by hyphens. *)
Definition trait_codes : list str :=
  levels ≫= λ O : str, levels ≫= λ C : str, levels ≫= λ E : str,
  levels ≫= λ A : str, levels ≫= λ N_ : str,
  [join [45] [O; C; E; A; N_]].

(** Keys are not empty and texts are stripped. *)
Definition well_formed (m : gmap str str) : Prop :=
  ∀ k t, m !! k = Some t → k ≠ [] ∧ strip t = t.

(** Two scanners that agree on all that decides the by-code map. *)
Definition same_codes (a b : scanner) : Prop :=
  by_code a = by_code b ∧ current_code a = current_code b ∧ buffer a = buffer b.

(** One of [0]..[9], [A]..[F]. *)
Definition is_upper_hex (c : N) : bool :=
  ((48 <=? c) && (c <=? 57)) || ((65 <=? c) && (c <=? 70)).

(** The value of a hexadecimal digit. *)
Definition hex_value (c : N) : N := if c <=? 57 then c - 48 else c - 55.

(** How many of the calls are [Generate]. *)
Fixpoint generates (cs : list call) : nat :=
  match cs with
  | [] => 0
  | Generate _ :: cs' => S (generates cs')
  | Verify _ :: cs' => generates cs'
  end.

(** How many of the logged [Verify] calls succeeded. *)
Fixpoint granted (log : list (str * bool)) : nat :=
  match log with
  | [] => 0
  | (_, true) :: log' => S (granted log')
  | (_, false) :: log' => granted log'
  end.

(** What [header_re] captures on the header line of the scenario. *)
Definition scenario_match : list (nat * str) :=
  [(5%nat, py "Low"); (4%nat, py "High"); (3%nat, py "Medium");
   (2%nat, py "Low"); (1%nat, py "High")].

Definition full_registry : list (str * json) :=
  [(py "High-High-High-High-High", JString (py "Sunforge"))].

(** A working directory where both candidates hold a registry. *)
Definition two_registries (file : str) : json_file :=
  if bool_decide (file = py "archetypes_full.json")
  then Holds (JObject full_registry)
  else Holds (JObject fallback_archetypes).


Definition paid_request : request :=
  Request [(py "code", py "High-Low-Medium-High-Low"); (py "paid", py "TRUE")].

(** The name on paragraph [p] of the document, when that paragraph is an
    archetype label: its stripped text matches [archetype_re]. *)
Definition label_at (raw : list str) (p : nat) : option str :=
  match raw !! p with
  | Some r =>
      match match_ archetype_re (strip r) with
      | Some m_name => Some (strip (group 1 m_name))
      | None => None
      end
  | None => None
  end.

(** * Properties *)

(** ** Stripping *)

Lemma lstrip_idemp s : lstrip (lstrip s) = lstrip s.
Proof.
  induction s as [|c s IH]; simpl; [done|].
  destruct (isspace c) eqn:Hc; [done|]. simpl. by rewrite Hc.
Qed.

Lemma lstrip_snoc s c : isspace c = false → lstrip (s ++ [c]) = lstrip s ++ [c].
Proof.
  intros Hc. induction s as [|d s IH]; simpl.
  - by rewrite Hc.
  - by destruct (isspace d).
Qed.

Lemma rstrip_idemp s : rstrip (rstrip s) = rstrip s.
Proof. unfold rstrip. by rewrite reverse_involutive, lstrip_idemp. Qed.

(** Stripping on the right leaves a left-stripped string left-stripped. *)
Lemma lstrip_rstrip_lstrip s : lstrip (rstrip (lstrip s)) = rstrip (lstrip s).
Proof.
  induction s as [|c s IH]; simpl; [done|].
  destruct (isspace c) eqn:Hc; [done|].
  unfold rstrip. rewrite reverse_cons, (lstrip_snoc _ _ Hc).
  rewrite reverse_app. simpl. by rewrite Hc.
Qed.

Lemma strip_idemp s : strip (strip s) = strip s.
Proof. unfold strip. by rewrite lstrip_rstrip_lstrip, rstrip_idemp. Qed.

(** ** The scanning loop *)

Lemma lines_lookup raw i : lines raw !! i = strip <$> raw !! i.
Proof. unfold lines. apply list_lookup_fmap. Qed.

Lemma scan_turn raw fuel i st r :
  raw !! i = Some r →
  scan raw (S fuel) i st =
    scan raw fuel (turn raw i (strip r) r st).1 (turn raw i (strip r) r st).2.
Proof.
  intros Hr. cbn [scan]. rewrite lines_lookup, Hr. cbn [fmap option_fmap option_map].
  by destruct (turn raw i (strip r) r st).
Qed.

Lemma scan_end raw fuel i st : raw !! i = None → scan raw fuel i st = Some st.
Proof.
  intros Hr. destruct fuel; cbn [scan]; by rewrite lines_lookup, Hr.
Qed.

Lemma turn_body raw i line r st :
  search header_re line = None →
  turn raw i line r st =
    (S i,
     if truthy (current_code st)
     then Scanner (by_code st) (by_name st) (current_code st)
                  (current_name st) (buffer st ++ [r])
     else st).
Proof. intros Hline. unfold turn. by rewrite Hline. Qed.

Lemma turn_header raw i line r st m name i' :
  search header_re line = Some m →
  lookahead raw [1; 2; 3]%nat i = Some (name, i') →
  name ≠ [] →
  turn raw i line r st =
    (S i', Scanner (by_code (flush st)) (by_name (flush st))
                   (Some (code_of_groups (groups 5 m))) (Some name) []).
Proof.
  intros Hline Hla Hname. unfold turn. rewrite Hline, Hla.
  destruct name as [|c name]; [done|]. cbn [truthy].
  f_equal. f_equal. unfold flush. by destruct (_ && _).
Qed.

Lemma turn_header_unnamed raw i line r st m :
  search header_re line = Some m →
  lookahead raw [1; 2; 3]%nat i = None →
  turn raw i line r st =
    (S i, Scanner (by_code (flush st)) (by_name (flush st))
                  (Some (code_of_groups (groups 5 m)))
                  (Some (py "Unknown_" ++ str_of_nat i)) []).
Proof.
  intros Hline Hla. unfold turn. rewrite Hline, Hla. cbn [truthy].
  f_equal. f_equal. unfold flush. by destruct (_ && _).
Qed.

(** [flush()] on an empty buffer changes nothing. *)
Lemma flush_empty st : buffer st = [] → flush st = st.
Proof.
  intros Hb. unfold flush. rewrite Hb.
  rewrite (bool_decide_eq_false_2 ([] ≠ [])) by (intros H; by apply H).
  rewrite andb_false_r. destruct st; simpl in *; by subst.
Qed.

(** [flush()] with a code and a non-empty buffer files the text under the
    code. *)
Lemma flush_commit st code :
  current_code st = Some code →
  code ≠ [] →
  buffer st ≠ [] →
  by_code (flush st) = <[code := strip (join [10] (buffer st))]> (by_code st).
Proof.
  intros Hc Hcode Hb. unfold flush. rewrite Hc.
  destruct code as [|c code]; [done|]. cbn [truthy default].
  by rewrite (bool_decide_eq_true_2 _ Hb).
Qed.

Lemma lookahead_index raw js i name i' :
  lookahead raw js i = Some (name, i') → (i ≤ i')%nat.
Proof.
  induction js as [|j js IH]; simpl; [done|].
  destruct (lines raw !! (i + j)%nat) as [l|]; [|done].
  destruct (match_ archetype_re (strip l)); [|done].
  intros [= _ <-]. lia.
Qed.

Lemma turn_advances raw i line r st : (i < (turn raw i line r st).1)%nat.
Proof.
  unfold turn. destruct (search header_re line); [|simpl; lia].
  destruct (lookahead raw [1; 2; 3]%nat i) as [[name i']|] eqn:Hla; simpl.
  - apply lookahead_index in Hla. lia.
  - lia.
Qed.

(** The loop ends within as many turns as paragraphs are left. *)
Lemma scan_terminates raw fuel : ∀ i st,
  (length raw - i ≤ fuel)%nat → is_Some (scan raw fuel i st).
Proof.
  induction fuel as [|fuel IH]; intros i st Hfuel.
  - unfold scan, lines. rewrite list_lookup_fmap.
    rewrite (lookup_ge_None_2 raw i) by lia. simpl. eauto.
  - simpl. destruct (lines raw !! i) as [line|]; [|eauto].
    destruct (raw !! i) as [r|] eqn:Hr; [|eauto].
    pose proof (turn_advances raw i line r st) as Hadv.
    destruct (turn raw i line r st) as [i' st']. simpl in Hadv.
    apply IH. lia.
Qed.

(** The scan of a document always returns. *)
Lemma extract_returns raw : is_Some (extract raw).
Proof.
  unfold extract.
  destruct (scan_terminates raw (length (lines raw)) 0 (Scanner ∅ ∅ None None []))
    as [st Hst].
  { unfold lines. rewrite length_fmap. lia. }
  rewrite Hst. simpl. eauto.
Qed.

(** ** The scanner on documents *)

(** The scanner always returns: a result or an exception. *)
Lemma load_detailed_archetypes_docx_returns disk file_path :
  is_Some (load_detailed_archetypes_docx disk file_path).
Proof.
  unfold load_detailed_archetypes_docx.
  destruct (disk file_path) as [| |paragraphs]; simpl; [eauto|eauto|].
  destruct (extract_returns paragraphs) as [maps ->]. simpl. eauto.
Qed.

(** C7.  When nothing exists at the path of the source document, the
    scanner returns two empty mappings and does not raise. *)
Theorem load_missing_document (disk : str → docx_file) (file_path : str) :
  path_exists (disk file_path) = false →
  load_detailed_archetypes_docx disk file_path = Some (Ok (∅, ∅)).
Proof.
  intros Hmissing. unfold load_detailed_archetypes_docx.
  by rewrite Hmissing.
Qed.

Lemma load_missing_document_witness :
  path_exists (empty_disk (py "morrowland 243.docx")) = false
  ∧ load_detailed_archetypes_docx empty_disk (py "morrowland 243.docx")
    = Some (Ok (∅, ∅)).
Proof.
  assert (H : path_exists (empty_disk (py "morrowland 243.docx")) = false)
    by reflexivity.
  split; [exact H|].
  exact (load_missing_document empty_disk (py "morrowland 243.docx") H).
Defined.

(** ** The header line and the label line of the scenario, flushing *)

Lemma scenario_header_groups :
  groups 5 <$> search header_re (strip scenario_header)
  = Some [py "High"; py "Low"; py "Medium"; py "High"; py "Low"].
Proof. vm_compute. reflexivity. Qed.

Lemma scenario_header_code m :
  search header_re (strip scenario_header) = Some m →
  code_of_groups (groups 5 m) = py "High-Low-Medium-High-Low".
Proof.
  intros Hm. pose proof scenario_header_groups as Hg.
  rewrite Hm in Hg. cbn [fmap option_fmap option_map] in Hg.
  assert (groups 5 m = [py "High"; py "Low"; py "Medium"; py "High"; py "Low"])
    as -> by congruence.
  vm_compute. reflexivity.
Qed.

Lemma scenario_label_name :
  (λ m, strip (group 1 m)) <$> match_ archetype_re (strip scenario_label)
  = Some (py "Starlight Wanderer").
Proof. vm_compute. reflexivity. Qed.

Lemma scan_preamble raw st fuel k :
  truthy (current_code st) = false →
  (∀ i r, (i < k)%nat → raw !! i = Some r → search header_re (strip r) = None) →
  (k ≤ length raw)%nat →
  ∀ d i, (i + d = k)%nat → scan raw (d + fuel) i st = scan raw fuel k st.
Proof.
  intros Hst Hpre Hk. induction d as [|d IH]; intros i Hi.
  - simpl. by replace i with k by lia.
  - destruct (lookup_lt_is_Some_2 raw i) as [r Hr]; [lia|].
    cbn [Nat.add]. rewrite (scan_turn _ _ _ _ _ Hr).
    rewrite turn_body by (eapply Hpre; [|done]; lia).
    rewrite Hst. cbn [fst snd]. apply IH. lia.
Qed.

(** A turn of the loop changes the maps only through its [flush()]. *)
Lemma turn_maps raw i line r st :
  by_code (turn raw i line r st).2
    = match search header_re line with
      | Some _ => by_code (flush st)
      | None => by_code st
      end
  ∧ by_name (turn raw i line r st).2
    = match search header_re line with
      | Some _ => by_name (flush st)
      | None => by_name st
      end.
Proof.
  unfold turn. destruct (search header_re line) as [m|].
  - by destruct (lookahead raw [1; 2; 3]%nat i) as [[name i']|].
  - by destruct (truthy (current_code st)).
Qed.

(** C5.  [flush()] on an empty buffer changes neither map (nor any other
    variable), and so does any turn of the loop taken with an empty buffer:
    a header with no narrative before the next header or the end of the
    document leaves no record under its code or its name.  With a code and
    a non-empty buffer, [flush()] (and so the turn at the next header)
    files the text under the code whatever was filed there before, and
    touches no other code: the later record wins.  Both are shown on a
    document each. *)
Theorem flush_empty_and_last_wins :
  (∀ st, buffer st = [] → flush st = st)
  ∧ (∀ raw i line r st, buffer st = [] →
       by_code (turn raw i line r st).2 = by_code st
       ∧ by_name (turn raw i line r st).2 = by_name st)
  ∧ (∀ st code, current_code st = Some code → code ≠ [] → buffer st ≠ [] →
       by_code (flush st) !! code = Some (strip (join [10] (buffer st)))
       ∧ ∀ other, other ≠ code →
           by_code (flush st) !! other = by_code st !! other)
  ∧ (∀ raw i line r st code,
       is_Some (search header_re line) →
       current_code st = Some code → code ≠ [] → buffer st ≠ [] →
       by_code (turn raw i line r st).2 !! code
         = Some (strip (join [10] (buffer st))))
  ∧ extract document_with_bare_header
    = Some ({[py "Low-Low-Low-Low-Low" := py "Body."]},
            {[py "Second" := py "Body."]})
  ∧ extract document_with_repeated_code
    = Some ({[py "High-Low-Medium-High-Low" := py "New text."]},
            {[py "First" := py "Old text."; py "Second" := py "New text."]}).
Proof.
  split; [exact flush_empty|]. split.
  { intros raw i line r st Hb.
    destruct (turn_maps raw i line r st) as [-> ->].
    rewrite (flush_empty st Hb). by destruct (search header_re line). }
  split.
  { intros st code Hc Hcode Hb. rewrite (flush_commit st code Hc Hcode Hb).
    split; [by rewrite lookup_insert_eq|].
    intros other Hne. by rewrite lookup_insert_ne. }
  split.
  { intros raw i line r st code [m Hm] Hc Hcode Hb.
    destruct (turn_maps raw i line r st) as [-> _]. rewrite Hm.
    by rewrite (flush_commit st code Hc Hcode Hb), lookup_insert_eq. }
  split; vm_compute; reflexivity.
Qed.

Lemma flush_empty_and_last_wins_witness :
  buffer idle_scanner = []
  ∧ flush idle_scanner = idle_scanner
  ∧ current_code loaded_scanner = Some (py "High-Low-Medium-High-Low")
  ∧ py "High-Low-Medium-High-Low" ≠ []
  ∧ buffer loaded_scanner ≠ []
  ∧ by_code (flush loaded_scanner) !! py "High-Low-Medium-High-Low"
    = Some (strip (join [10] (buffer loaded_scanner))).
Proof.
  assert (Hcode : py "High-Low-Medium-High-Low" ≠ []) by (vm_compute; discriminate).
  assert (Hbuf : buffer loaded_scanner ≠ []) by (vm_compute; discriminate).
  split; [reflexivity|].
  split; [exact (proj1 flush_empty_and_last_wins idle_scanner eq_refl)|].
  split; [reflexivity|]. split; [exact Hcode|]. split; [exact Hbuf|].
  exact (proj1 (proj1 (proj2 (proj2 flush_empty_and_last_wins))
                  loaded_scanner _ eq_refl Hcode Hbuf)).
Defined.

(** ** The registry loader *)

Lemma load_first_skipped cwd files :
  (∀ file, file ∈ files → skipped (cwd file) = true) →
  load_first cwd files = Ok fallback_archetypes.
Proof.
  induction files as [|file files IH]; intros Hall; [done|].
  simpl. pose proof (Hall file (list_elem_of_here _ _)) as Hfile.
  assert (load_first cwd files = Ok fallback_archetypes) as ->.
  { apply IH. intros f Hf. apply Hall. by right. }
  destruct (cwd file) as [|e|data]; simpl in *; [done|done|].
  apply bool_decide_eq_true_1 in Hfile. by rewrite Hfile.
Qed.

Lemma load_first_broken cwd pre file post e :
  (∀ f, f ∈ pre → skipped (cwd f) = true) →
  cwd file = Broken e →
  load_first cwd (pre ++ file :: post) = Raise e.
Proof.
  induction pre as [|p pre IH]; intros Hpre Hfile; simpl.
  - by rewrite Hfile.
  - pose proof (Hpre p (list_elem_of_here _ _)) as Hp.
    assert (load_first cwd (pre ++ file :: post) = Raise e) as ->.
    { apply IH; [|done]. intros f Hf. apply Hpre. by right. }
    destruct (cwd p) as [|e'|data]; simpl in *; [done|done|].
    apply bool_decide_eq_true_1 in Hp. by rewrite Hp.
Qed.

(** C6, as stated, fails: with [archetypes_full.json] present but not
    JSON, both candidates are missing or invalid, and [load_archetypes]
    raises instead of returning the built-in mapping. *)
Lemma load_archetypes_unparsable_raises :
  (∀ file, file ∈ candidates → missing_or_invalid (unparsable_registry file) = true)
  ∧ load_archetypes unparsable_registry = Raise JSONDecodeError
  ∧ load_archetypes unparsable_registry ≠ Ok fallback_archetypes.
Proof.
  split; [|split; [reflexivity|discriminate]].
  intros file _. unfold unparsable_registry. by case_bool_decide.
Qed.

(** C6, amended.  If each candidate file is missing or holds JSON that is
    not a non-empty object, [load_archetypes] returns the built-in one-entry
    mapping without raising.  A candidate that exists but cannot be read as
    JSON makes the call raise, when the loop reaches it. *)
Theorem load_archetypes_fallback (cwd : str → json_file) :
  ((∀ file, file ∈ candidates → skipped (cwd file) = true) →
     load_archetypes cwd = Ok fallback_archetypes)
  ∧ (∀ e, cwd (py "archetypes_full.json") = Broken e →
       load_archetypes cwd = Raise e)
  ∧ (∀ e, skipped (cwd (py "archetypes_full.json")) = true →
       cwd (py "archetypes.json") = Broken e →
       load_archetypes cwd = Raise e).
Proof.
  split; [apply load_first_skipped|]. split.
  - intros e He. apply (load_first_broken cwd [] _ [_]); [|done].
    intros f Hf. by apply elem_of_nil in Hf.
  - intros e Hfull He.
    apply (load_first_broken cwd [py "archetypes_full.json"] _ []); [|done].
    intros f Hf. apply list_elem_of_singleton in Hf. by subst.
Qed.

Lemma load_archetypes_fallback_witness :
  (∀ file, file ∈ candidates → skipped (empty_registry file) = true)
  ∧ load_archetypes empty_registry = Ok fallback_archetypes.
Proof.
  assert (H : ∀ file, file ∈ candidates → skipped (empty_registry file) = true).
  { intros file _. unfold empty_registry. by case_bool_decide. }
  split; [exact H|].
  exact (proj1 (load_archetypes_fallback empty_registry) H).
Defined.

(** ** The access-code store *)

Lemma load_save codes w : load_free_codes (save_free_codes codes w) = codes.
Proof. reflexivity. Qed.

Lemma verify_answer code w : (verify_free_code code w).1 = redeemable code w.
Proof.
  unfold verify_free_code, redeemable.
  destruct (load_free_codes w !! code) as [[[]]|]; reflexivity.
Qed.

Lemma verify_refused code w :
  redeemable code w = false → verify_free_code code w = (false, w).
Proof.
  unfold verify_free_code, redeemable.
  destruct (load_free_codes w !! code) as [[[]]|]; simpl; congruence.
Qed.

Lemma verify_granted code w :
  redeemable code w = true →
  verify_free_code code w =
    (true, save_free_codes (<[code := Entry true]> (load_free_codes w)) w).
Proof.
  unfold verify_free_code, redeemable.
  destruct (load_free_codes w !! code) as [[[]]|]; simpl; congruence.
Qed.

(** No [verify_free_code] makes a code redeemable. *)
Lemma verify_keeps_spent code code' w :
  redeemable code w = false →
  redeemable code (verify_free_code code' w).2 = false.
Proof.
  intros Hspent.
  destruct (redeemable code' w) eqn:Hr.
  - rewrite (verify_granted _ _ Hr). simpl.
    unfold redeemable. rewrite load_save.
    destruct (decide (code' = code)) as [->|Hne].
    + by rewrite lookup_insert_eq.
    + rewrite lookup_insert_ne by done. exact Hspent.
  - by rewrite (verify_refused _ _ Hr).
Qed.

(** After a [verify_free_code(code)], whatever it answered, [code] is not
    redeemable. *)
Lemma verify_spends code w : redeemable code (verify_free_code code w).2 = false.
Proof.
  destruct (redeemable code w) eqn:Hr.
  - rewrite (verify_granted _ _ Hr). simpl.
    unfold redeemable. rewrite load_save. by rewrite lookup_insert_eq.
  - by rewrite (verify_refused _ _ Hr).
Qed.

(** Issuing another code leaves a spent code spent. *)
Lemma generate_keeps_spent code e w :
  new_code e ≠ code →
  redeemable code w = false →
  redeemable code (generate_free_code e w).2 = false.
Proof.
  intros Hne Hspent. unfold generate_free_code. simpl.
  unfold redeemable. rewrite load_save, lookup_insert_ne by done. exact Hspent.
Qed.

Lemma generate_redeemable e w :
  redeemable (new_code e) (generate_free_code e w).2 = true.
Proof.
  unfold generate_free_code. simpl.
  unfold redeemable. by rewrite load_save, lookup_insert_eq.
Qed.

Lemma not_reissued_cons code c cs :
  not_reissued code (c :: cs) → not_reissued code cs.
Proof. intros H e He. apply H. by right. Qed.

Lemma calls_verify code cs w :
  calls (Verify code :: cs) w =
    ((code, (verify_free_code code w).1) :: (calls cs (verify_free_code code w).2).1,
     (calls cs (verify_free_code code w).2).2).
Proof.
  simpl. destruct (verify_free_code code w) as [ok w'].
  simpl. by destruct (calls cs w').
Qed.

Lemma calls_generate e cs w :
  calls (Generate e :: cs) w = calls cs (generate_free_code e w).2.
Proof. simpl. by destruct (generate_free_code e w). Qed.

Lemma successes_cons code code' ok log :
  successes code ((code', ok) :: log) =
    ((if bool_decide ((code', ok) = (code, true)) then 1 else 0)
     + successes code log)%nat.
Proof.
  unfold successes. rewrite filter_cons.
  case_bool_decide; rewrite decide_bool_decide;
    case_bool_decide; simpl; congruence.
Qed.

(** A spent (or unknown) code stays refused through any calls that do not
    issue it again. *)
Lemma spent_forever code cs : ∀ w,
  not_reissued code cs →
  redeemable code w = false →
  successes code (calls cs w).1 = 0%nat ∧ redeemable code (calls cs w).2 = false.
Proof.
  induction cs as [|[code'|e] cs IH]; intros w Hcs Hspent.
  - done.
  - rewrite calls_verify. simpl. rewrite successes_cons.
    destruct (IH (verify_free_code code' w).2) as [IH1 IH2].
    { by eapply not_reissued_cons. }
    { by apply verify_keeps_spent. }
    split; [|done]. rewrite IH1.
    case_bool_decide as Heq; [|done].
    injection Heq as -> Hok. rewrite verify_answer in Hok. congruence.
  - rewrite calls_generate.
    apply IH; [by eapply not_reissued_cons|].
    apply generate_keeps_spent; [|done]. apply Hcs. by left.
Qed.

Lemma at_most_once code cs : ∀ w,
  not_reissued code cs → (successes code (calls cs w).1 ≤ 1)%nat.
Proof.
  induction cs as [|[code'|e] cs IH]; intros w Hcs.
  - simpl. unfold successes. simpl. lia.
  - rewrite calls_verify. simpl. rewrite successes_cons.
    case_bool_decide as Heq.
    + injection Heq as -> Hok.
      destruct (spent_forever code cs (verify_free_code code w).2) as [-> _];
        [by eapply not_reissued_cons|apply verify_spends|lia].
    + simpl. apply IH. by eapply not_reissued_cons.
  - rewrite calls_generate. apply IH. by eapply not_reissued_cons.
Qed.

(** C3, as stated, fails: a code is verified, which sets its [used] flag,
    then issued again by [generate_free_code], and the next
    [verify_free_code] of it succeeds a second time. *)
Lemma verify_succeeds_again_after_reissue :
  new_code fresh_draw = spent_code
  ∧ load_free_codes (verify_free_code spent_code unspent_world).2 !! spent_code
    = Some (Entry true)
  ∧ (calls reissue_calls unspent_world).1
    = [(spent_code, true); (spent_code, true)]
  ∧ successes spent_code (calls reissue_calls unspent_world).1 = 2%nat.
Proof. repeat split; vm_compute; reflexivity. Qed.

(** C3, amended.  [verify_free_code] succeeds at most once per token as
    long as [generate_free_code] does not issue the token again: over any
    sequence of calls on the store in which the token is not issued afresh,
    at most one [verify_free_code] of it answers [True]; if the stored
    entry already has [used] set, or the token is not in the store, none
    does, and a further [verify_free_code] of it is refused and leaves the
    world as it is. *)
Theorem verify_free_code_at_most_once (code : str) (cs : list call) (w : world) :
  not_reissued code cs →
  (successes code (calls cs w).1 ≤ 1)%nat
  ∧ (∀ e, load_free_codes w !! code = Some e → used e = true →
       successes code (calls cs w).1 = 0%nat
       ∧ verify_free_code code (calls cs w).2 = (false, (calls cs w).2))
  ∧ (load_free_codes w !! code = None →
       successes code (calls cs w).1 = 0%nat
       ∧ verify_free_code code (calls cs w).2 = (false, (calls cs w).2)).
Proof.
  intros Hcs. split; [by apply at_most_once|].
  split.
  - intros e He Hused.
    destruct (spent_forever code cs w Hcs) as [H0 Hspent].
    { unfold redeemable. by rewrite He, Hused. }
    split; [done|]. by apply verify_refused.
  - intros Hnone.
    destruct (spent_forever code cs w Hcs) as [H0 Hspent].
    { unfold redeemable. by rewrite Hnone. }
    split; [done|]. by apply verify_refused.
Qed.

(** Goes through a concrete list of calls, leaving one goal for each
    [Generate] in it. *)
Ltac each_generate He :=
  repeat (apply elem_of_cons in He as [He|He];
          [first [discriminate He | injection He as ->]|]);
  try (by apply elem_of_nil in He).

Lemma spent_calls_not_reissued : not_reissued spent_code spent_calls.
Proof.
  intros e He. unfold spent_calls in He.
  each_generate He. vm_compute. discriminate.
Defined.

Lemma verify_free_code_at_most_once_witness :
  not_reissued spent_code spent_calls
  ∧ load_free_codes spent_world !! spent_code = Some (Entry true)
  ∧ successes spent_code (calls spent_calls spent_world).1 = 0%nat
  ∧ verify_free_code spent_code (calls spent_calls spent_world).2
    = (false, (calls spent_calls spent_world).2).
Proof.
  split; [exact spent_calls_not_reissued|].
  assert (H : load_free_codes spent_world !! spent_code = Some (Entry true))
    by (vm_compute; reflexivity).
  split; [exact H|].
  exact (proj1 (proj2 (verify_free_code_at_most_once spent_code spent_calls
                         spent_world spent_calls_not_reissued))
           (Entry true) H eq_refl).
Defined.

(** C8, as stated, fails: after [generate_free_code] and a successful
    [verify_free_code], a [generate_free_code] that draws the same bytes
    issues the token again, and a further [verify_free_code] of it
    succeeds. *)
Lemma verify_after_second_issue :
  (verify_free_code (new_code fresh_draw)
     (generate_free_code fresh_draw (World None [])).2).1 = true
  ∧ (generate_free_code fresh_draw
       (verify_free_code (new_code fresh_draw)
          (generate_free_code fresh_draw (World None [])).2).2).1
    = new_code fresh_draw
  ∧ (verify_free_code (new_code fresh_draw)
       (generate_free_code fresh_draw
          (verify_free_code (new_code fresh_draw)
             (generate_free_code fresh_draw (World None [])).2).2).2).1 = true.
Proof. repeat split; vm_compute; reflexivity. Qed.

(** C8, amended.  A token returned by [generate_free_code] is verified
    successfully exactly once, as long as the same token is not issued
    afresh: the [verify_free_code] that follows answers [True], the next
    one answers [False], and so does every later one, whatever calls come
    in between. *)
Theorem generate_then_verify_once (e : entropy) (w : world) (cs : list call) :
  not_reissued (new_code e) cs →
  (generate_free_code e w).1 = new_code e
  ∧ (verify_free_code (new_code e) (generate_free_code e w).2).1 = true
  ∧ (verify_free_code (new_code e)
       (verify_free_code (new_code e) (generate_free_code e w).2).2).1 = false
  ∧ successes (new_code e)
      (calls (Verify (new_code e) :: cs) (generate_free_code e w).2).1 = 1%nat
  ∧ (verify_free_code (new_code e)
       (calls (Verify (new_code e) :: cs) (generate_free_code e w).2).2).1 = false.
Proof.
  intros Hcs.
  set (w1 := (generate_free_code e w).2).
  assert (Hr : redeemable (new_code e) w1 = true) by apply generate_redeemable.
  split; [reflexivity|].
  split; [by rewrite verify_answer|].
  split; [by rewrite verify_answer, verify_spends|].
  rewrite calls_verify. simpl. rewrite successes_cons.
  destruct (spent_forever (new_code e) cs (verify_free_code (new_code e) w1).2 Hcs)
    as [H0 Hspent]; [apply verify_spends|].
  split.
  - rewrite H0, verify_answer, Hr. by rewrite bool_decide_eq_true_2.
  - by rewrite verify_answer.
Qed.

Lemma fresh_calls_not_reissued : not_reissued (new_code fresh_draw) fresh_calls.
Proof.
  intros e He. unfold fresh_calls in He.
  each_generate He. vm_compute. discriminate.
Defined.

Lemma generate_then_verify_once_witness :
  not_reissued (new_code fresh_draw) fresh_calls
  ∧ successes (new_code fresh_draw)
      (calls (Verify (new_code fresh_draw) :: fresh_calls)
         (generate_free_code fresh_draw (World None [])).2).1 = 1%nat.
Proof.
  split; [exact fresh_calls_not_reissued|].
  exact (proj1 (proj2 (proj2 (proj2
           (generate_then_verify_once fresh_draw (World None []) fresh_calls
              fresh_calls_not_reissued))))).
Defined.

(** C10.  [verify_free_code] writes only when it grants.  When it answers
    [False] the world is left as it was: [free_codes.json] is not written
    (not even created) and nothing is saved.  When it answers [True] the
    token was stored unused, exactly one save happens, whose payload is the
    loaded store with that token's entry set to used, and every other
    token's entry is what it was. *)
Theorem verify_free_code_frame (code : str) (w : world) :
  ((verify_free_code code w).1 = false → (verify_free_code code w).2 = w)
  ∧ ((verify_free_code code w).1 = true →
       load_free_codes w !! code = Some (Entry false)
       ∧ free_codes_file (verify_free_code code w).2
           = Some (<[code := Entry true]> (load_free_codes w))
       ∧ saves (verify_free_code code w).2
           = saves w ++ [<[code := Entry true]> (load_free_codes w)]
       ∧ load_free_codes (verify_free_code code w).2 !! code = Some (Entry true)
       ∧ ∀ other, other ≠ code →
           load_free_codes (verify_free_code code w).2 !! other
             = load_free_codes w !! other).
Proof.
  rewrite verify_answer. split.
  - intros Hr. by rewrite (verify_refused _ _ Hr).
  - intros Hr. rewrite (verify_granted _ _ Hr). simpl.
    split.
    { unfold redeemable in Hr.
      destruct (load_free_codes w !! code) as [[[]]|]; simpl in Hr; congruence. }
    split; [done|]. split; [done|].
    rewrite load_save. split.
    + by rewrite lookup_insert_eq.
    + intros other Hne. by rewrite lookup_insert_ne.
Qed.

Lemma verify_free_code_frame_witness :
  (verify_free_code (py "00000000") unspent_world).1 = false
  ∧ (verify_free_code (py "00000000") unspent_world).2 = unspent_world
  ∧ (verify_free_code spent_code unspent_world).1 = true
  ∧ saves (verify_free_code spent_code unspent_world).2
    = [<[spent_code := Entry true]> (load_free_codes unspent_world)].
Proof.
  assert (H0 : (verify_free_code (py "00000000") unspent_world).1 = false)
    by (vm_compute; reflexivity).
  assert (H1 : (verify_free_code spent_code unspent_world).1 = true)
    by (vm_compute; reflexivity).
  split; [exact H0|].
  split; [exact (proj1 (verify_free_code_frame (py "00000000") unspent_world) H0)|].
  split; [exact H1|].
  exact (proj1 (proj2 (proj2
           (proj2 (verify_free_code_frame spent_code unspent_world) H1)))).
Defined.

(** ** The routes *)

Lemma is_prefix_refl s : is_prefix s s = true.
Proof. induction s as [|c s IH]; simpl; [done|]. by rewrite N.eqb_refl. Qed.

Lemma contains_refl s : contains s s = true.
Proof. destruct s; simpl; [done|]. by rewrite N.eqb_refl, is_prefix_refl. Qed.

Lemma contains_empty s : contains [] s = true.
Proof. by destruct s. Qed.

Lemma document_contains_paragraph text h :
  document_contains text [h; Paragraph text] = true.
Proof.
  unfold document_contains. cbn [existsb block_text].
  rewrite contains_refl. by rewrite orb_true_r.
Qed.

(** The name shown by [api_render_report] comes from the registry alone. *)
Lemma report_context_archetype BY_CODE BY_NAME ARCHETYPES req :
  archetype (report_context BY_CODE BY_NAME ARCHETYPES req) =
    or_str (ARCHETYPES !! args_get (py "code") [] (args req)) (py "Unknown").
Proof.
  unfold report_context.
  destruct (truthy (BY_CODE !! _)); simpl;
    by destruct (ARCHETYPES !! _) as [[|c name]|].
Qed.

(** C1.  When the [paid] parameter, lower-cased, is not ["true"], the page
    is the template applied to the registry name of the code (or
    ["Unknown"]), the code itself, ["Locked"], the one section
    ["Summary"] holding the fixed preview message, and the quote: no
    narrative text reaches it, and the response is the same whatever the
    two narrative maps hold. *)
Theorem api_render_report_unpaid
    (BY_CODE BY_NAME ARCHETYPES : gmap str str)
    (render_template : str → request → context → str)
    (req : request) (w : world) :
  lower (args_get (py "paid") [] (args req)) ≠ py "true" →
  sections (report_context BY_CODE BY_NAME ARCHETYPES req)
    = [(py "Summary", preview_message)]
  ∧ api_render_report BY_CODE BY_NAME ARCHETYPES render_template req w
    = (Page (render_template (py "detailed_report.html") req
         (Context
            (or_str (ARCHETYPES !! args_get (py "code") [] (args req))
                    (py "Unknown"))
            (args_get (py "code") [] (args req))
            (py "Locked")
            [(py "Summary", preview_message)]
            ([8220] ++ py "Depth rewards patience." ++ [8221]))), w)
  ∧ ∀ BY_CODE' BY_NAME' : gmap str str,
      api_render_report BY_CODE' BY_NAME' ARCHETYPES render_template req w
      = api_render_report BY_CODE BY_NAME ARCHETYPES render_template req w.
Proof.
  intros Hpaid.
  assert (Hctx : ∀ bc bn : gmap str str,
    report_context bc bn ARCHETYPES req =
      Context
        (or_str (ARCHETYPES !! args_get (py "code") [] (args req)) (py "Unknown"))
        (args_get (py "code") [] (args req)) (py "Locked")
        [(py "Summary", preview_message)]
        ([8220] ++ py "Depth rewards patience." ++ [8221])).
  { intros bc bn. unfold report_context.
    rewrite (bool_decide_eq_false_2 _ Hpaid).
    destruct (truthy (bc !! _)); simpl;
      by destruct (ARCHETYPES !! _) as [[|c name]|]. }
  split; [by rewrite Hctx|].
  unfold api_render_report. split; [by rewrite Hctx|].
  intros bc bn. by rewrite !Hctx.
Qed.

Lemma api_render_report_unpaid_witness :
  lower (args_get (py "paid") [] (args unpaid_request)) ≠ py "true"
  ∧ sections (report_context unknown_by_code unknown_by_name fallback_registry
                unpaid_request)
    = [(py "Summary", preview_message)].
Proof.
  assert (H : lower (args_get (py "paid") [] (args unpaid_request)) ≠ py "true")
    by (vm_compute; discriminate).
  split; [exact H|].
  exact (proj1 (api_render_report_unpaid unknown_by_code unknown_by_name
                  fallback_registry sample_template unpaid_request
                  (World None []) H)).
Defined.

Lemma header_safe_app s t : header_safe (s ++ t) = header_safe s && header_safe t.
Proof. unfold header_safe. apply forallb_app. Qed.

Lemma header_safe_replace s : header_safe (replace_char 32 [95] s) = header_safe s.
Proof.
  unfold replace_char. induction s as [|c s IH]; [done|].
  cbn [mbind list_bind]. rewrite header_safe_app, IH.
  destruct (c =? 32) eqn:Hc.
  - apply N.eqb_eq in Hc. by subst.
  - unfold header_safe. cbn [forallb]. by rewrite andb_true_r.
Qed.

(** The checked route answers what the route's own code asks [send_file]
    for, when the libraries take the name and the text; it raises
    otherwise. *)
Lemma download_report_checked_spec BY_CODE BY_NAME ARCHETYPES req w :
  let code := args_get (py "code") [] (args req) in
  let name := default (py "Unknown") (ARCHETYPES !! code) in
  let text := or_str (py_or (BY_CODE !! code) (BY_NAME !! name))
                (py "Detailed text not found.") in
  download_report_checked BY_CODE BY_NAME ARCHETYPES req w
  = if negb (xml_compatible name) then (Raised NotXmlCompatible, w)
    else if negb (xml_compatible text) then (Raised NotXmlCompatible, w)
    else if negb (header_safe name) then (Raised NewlineInHeader, w)
    else (Served (download_report BY_CODE BY_NAME ARCHETYPES req w).1, w).
Proof.
  intros code name text. unfold download_report_checked, add_block.
  fold code name. cbn [block_text]. fold text.
  destruct (xml_compatible name); cbn [negb]; [|done].
  destruct (xml_compatible text); cbn [negb]; [|done].
  unfold send_file. rewrite header_safe_app, header_safe_replace.
  assert (header_safe (py "_Detailed_Report.docx") = true) as ->
    by (vm_compute; reflexivity).
  rewrite andb_true_r. by destruct (header_safe name).
Qed.

Lemma fallback_text_xml : xml_compatible (py "Detailed text not found.") = true.
Proof. vm_compute. reflexivity. Qed.

(** C2, as stated, fails: the code of [unknown_document] is in the by-code
    map scanned from it, but with a registry name that holds a line feed
    the route raises in [send_file] and returns no attachment. *)
Lemma download_report_newline_name_raises :
  extract unknown_document = Some (unknown_by_code, unknown_by_name)
  ∧ unknown_by_code !! args_get (py "code") [] (args unpaid_request)
    = Some (py "A narrative filed under the name Unknown.")
  ∧ download_report_checked unknown_by_code unknown_by_name newline_registry
      unpaid_request (World None [])
    = (Raised NewlineInHeader, World None []).
Proof. repeat split; vm_compute; reflexivity. Qed.

(** C2, amended.  [download_report] checks neither payment nor access
    code.  For a code the by-code map knows, when the [docx] package takes
    the registry name and the texts (no character XML cannot hold) and
    [send_file] takes the name (no carriage return or line feed), the
    response is the attachment [<name>_Detailed_Report.docx] whose document
    holds the narrative (it is the document's one paragraph whenever the
    narrative is not empty).  In every case the world is left as it was and
    the outcome is the same for every request with that [code] parameter
    and in every world, whatever [paid] or the code store say. *)
Theorem download_report_unconditional
    (BY_CODE BY_NAME ARCHETYPES : gmap str str)
    (req : request) (w : world) (text : str) :
  BY_CODE !! args_get (py "code") [] (args req) = Some text →
  let name := default (py "Unknown")
                (ARCHETYPES !! args_get (py "code") [] (args req)) in
  (xml_compatible name = true → header_safe name = true →
   xml_compatible text = true →
   (∀ t, BY_NAME !! name = Some t → xml_compatible t = true) →
   ∃ body,
      download_report_checked BY_CODE BY_NAME ARCHETYPES req w
        = (Served (SendFile body true
                     (replace_char 32 [95] name ++ py "_Detailed_Report.docx")
                     docx_mimetype), w)
      ∧ document_contains text body = true
      ∧ (text ≠ [] → body = [Heading name 1; Paragraph text]))
  ∧ ∀ (req' : request) (w' : world),
      args_get (py "code") [] (args req') = args_get (py "code") [] (args req) →
      download_report_checked BY_CODE BY_NAME ARCHETYPES req' w'
      = ((download_report_checked BY_CODE BY_NAME ARCHETYPES req w).1, w').
Proof.
  intros Htext name. split.
  - intros Hname Hhead Hxml Hbyname.
    rewrite download_report_checked_spec. fold name. rewrite Hname, Hhead.
    cbn [negb].
    assert (Hpar : xml_compatible
              (or_str (py_or (BY_CODE !! args_get (py "code") [] (args req))
                             (BY_NAME !! name))
                      (py "Detailed text not found.")) = true).
    { unfold py_or. rewrite Htext. destruct text as [|c text]; [|done].
      cbn [truthy]. destruct (BY_NAME !! name) as [[|c t]|] eqn:Hn;
        cbn [or_str]; [exact fallback_text_xml| |exact fallback_text_xml].
      by apply Hbyname. }
    rewrite Hpar. cbn [negb].
    eexists. split; [reflexivity|].
    unfold py_or. rewrite Htext.
    destruct text as [|c text].
    + split; [|by intros []].
      unfold document_contains. cbn [existsb block_text].
      by rewrite contains_empty.
    + cbn [truthy or_str]. split; [|done].
      apply document_contains_paragraph.
  - intros req' w' Hcode. rewrite !download_report_checked_spec.
    unfold download_report. rewrite Hcode.
    repeat (destruct (negb _); [done|]). done.
Qed.

Lemma download_report_unconditional_witness :
  unknown_by_code !! args_get (py "code") [] (args unpaid_request)
    = Some (py "A narrative filed under the name Unknown.")
  ∧ xml_compatible (py "Unknown") = true
  ∧ header_safe (py "Unknown") = true
  ∧ xml_compatible (py "A narrative filed under the name Unknown.") = true
  ∧ download_report_checked unknown_by_code unknown_by_name fallback_registry
      unpaid_request (World None [])
    = (Served (SendFile
                 [Heading (py "Unknown") 1;
                  Paragraph (py "A narrative filed under the name Unknown.")]
                 true (py "Unknown_Detailed_Report.docx") docx_mimetype),
       World None [])
  ∧ download_report_checked unknown_by_code unknown_by_name fallback_registry
      paid_request spent_world
    = (Served (SendFile
                 [Heading (py "Unknown") 1;
                  Paragraph (py "A narrative filed under the name Unknown.")]
                 true (py "Unknown_Detailed_Report.docx") docx_mimetype),
       spent_world).
Proof.
  assert (H : unknown_by_code !! args_get (py "code") [] (args unpaid_request)
              = Some (py "A narrative filed under the name Unknown."))
    by (vm_compute; reflexivity).
  assert (Hcode : args_get (py "code") [] (args paid_request)
                  = args_get (py "code") [] (args unpaid_request))
    by (vm_compute; reflexivity).
  assert (H1 : xml_compatible (py "Unknown") = true) by (vm_compute; reflexivity).
  assert (H2 : header_safe (py "Unknown") = true) by (vm_compute; reflexivity).
  assert (H3 : xml_compatible (py "A narrative filed under the name Unknown.")
               = true) by (vm_compute; reflexivity).
  assert (H4 : ∀ t, unknown_by_name !! py "Unknown" = Some t →
                    xml_compatible t = true).
  { intros t Ht. vm_compute in Ht. injection Ht as <-. vm_compute. reflexivity. }
  split; [exact H|]. split; [exact H1|]. split; [exact H2|]. split; [exact H3|].
  destruct (download_report_unconditional unknown_by_code unknown_by_name
              fallback_registry unpaid_request (World None []) _ H)
    as [Hsent Hsame].
  destruct (Hsent H1 H2 H3 H4) as (body & Hbody & _ & Hpar).
  rewrite (Hsame paid_request spent_world Hcode), Hbody.
  rewrite (Hpar ltac:(vm_compute; discriminate)). done.
Defined.

(** With nothing filed under the default name, the route sends the
    fallback text for a code it does not know. *)
Lemma download_report_fallback_text
    (BY_CODE BY_NAME ARCHETYPES : gmap str str) (req : request) (w : world) :
  ARCHETYPES !! args_get (py "code") [] (args req) = None →
  BY_CODE !! args_get (py "code") [] (args req) = None →
  truthy (BY_NAME !! py "Unknown") = false →
  download_report_checked BY_CODE BY_NAME ARCHETYPES req w
  = (Served (SendFile
               [Heading (py "Unknown") 1;
                Paragraph (py "Detailed text not found.")]
               true (py "Unknown_Detailed_Report.docx") docx_mimetype), w).
Proof.
  intros Hreg Hcode Hname.
  unfold download_report_checked. rewrite Hreg, Hcode.
  cbn [default py_or truthy].
  assert (or_str (BY_NAME !! py "Unknown") (py "Detailed text not found.")
          = py "Detailed text not found.") as ->.
  { by destruct (BY_NAME !! py "Unknown") as [[|c s]|]. }
  vm_compute. reflexivity.
Qed.

(** C9.  The route at the input that shows the defect.  ["Unknown-Code"]
    is in neither the registry nor the two maps scanned from
    [unknown_document]; [download_report] looks the default name
    ["Unknown"] up in the by-name map and sends the narrative filed there,
    not the fallback text, while [api_render_report], which looks a name up
    only for a code of the registry, shows its fallback text for the same
    code. *)
Theorem download_unknown_code_serves_unknown_name :
  extract unknown_document = Some (unknown_by_code, unknown_by_name)
  ∧ fallback_registry !! py "Unknown-Code" = None
  ∧ unknown_by_code !! py "Unknown-Code" = None
  ∧ unknown_by_name !! py "Unknown-Code" = None
  ∧ download_report_checked unknown_by_code unknown_by_name fallback_registry
      unknown_request (World None [])
    = (Served (SendFile
                 [Heading (py "Unknown") 1;
                  Paragraph (py "A narrative filed under the name Unknown.")]
                 true (py "Unknown_Detailed_Report.docx") docx_mimetype),
       World None [])
  ∧ document_contains (py "Detailed text not found.")
      [Heading (py "Unknown") 1;
       Paragraph (py "A narrative filed under the name Unknown.")] = false
  ∧ sections (report_context unknown_by_code unknown_by_name fallback_registry
                paid_unknown_request)
    = [(py "Detailed Report", py "Detailed report not found.")].
Proof. repeat split; vm_compute; reflexivity. Qed.

(** * Further properties *)

(** ** The matcher *)

Lemma step_sound p cu k res :
  step p cu k = Some res →
  ∃ ch s', rest cu = ch :: s' ∧ p ch = true
           ∧ k (Cursor (S (pos cu)) s' (caps cu)) = Some res.
Proof.
  unfold step. destruct (rest cu) as [|ch s']; [done|].
  destruct (p ch) eqn:Hp; [|done]. eauto 6.
Qed.

Lemma orelse_Some {A} (a b : option A) x :
  orelse a b = Some x → a = Some x ∨ b = Some x.
Proof. destruct a; simpl; auto. Qed.

(** Whatever the matcher accepts, the pattern matches. *)
Lemma run_sound r : ∀ cu k res,
  run r cu k = Some res → ∃ cu', matches r cu cu' ∧ k cu' = Some res.
Proof.
  induction r as [|c|cs| | |r1 IH1 r2 IH2|r1 IH1 r2 IH2|r1 IH1|r1 IH1|r1 IH1
                  |g r1 IH1| |]; intros cu k res Hrun; cbn [run] in Hrun.
  - eauto using matches.
  - apply step_sound in Hrun as (ch & s' & Hr & Hp & Hk).
    eexists. split; [|exact Hk]. by eapply (M_Char (Ci c)).
  - apply step_sound in Hrun as (ch & s' & Hr & Hp & Hk).
    eexists. split; [|exact Hk]. by eapply (M_Char (OneOf cs)).
  - apply step_sound in Hrun as (ch & s' & Hr & Hp & Hk).
    eexists. split; [|exact Hk]. by eapply (M_Char Space).
  - apply step_sound in Hrun as (ch & s' & Hr & Hp & Hk).
    eexists. split; [|exact Hk]. by eapply (M_Char Dot).
  - apply IH1 in Hrun as (cu1 & H1 & Hrun).
    apply IH2 in Hrun as (cu2 & H2 & Hk). eauto using matches.
  - apply orelse_Some in Hrun as [Hrun|Hrun].
    + apply IH1 in Hrun as (cu' & H1 & Hk). eauto using matches.
    + apply IH2 in Hrun as (cu' & H2 & Hk). eauto using matches.
  - apply orelse_Some in Hrun as [Hrun|Hrun].
    + apply IH1 in Hrun as (cu' & H1 & Hk). eauto using matches.
    + eauto using matches.
  - revert Hrun. generalize (length (rest cu)). intros n. revert cu.
    induction n as [|n IHn]; intros cu Hrun.
    + eauto using matches.
    + apply orelse_Some in Hrun as [Hrun|Hrun]; [|eauto using matches].
      apply IH1 in Hrun as (cu1 & H1 & Hk).
      destruct (progress cu cu1); [|done].
      apply IHn in Hk as (cu2 & H2 & Hk). eauto using matches.
  - revert Hrun. generalize (length (rest cu)). intros n. revert cu.
    induction n as [|n IHn]; intros cu Hrun.
    + apply orelse_Some in Hrun as [Hrun|Hrun]; [eauto using matches|].
      simpl in Hrun. done.
    + apply orelse_Some in Hrun as [Hrun|Hrun]; [eauto using matches|].
      apply IH1 in Hrun as (cu1 & H1 & Hk).
      destruct (progress cu cu1); [|done].
      apply IHn in Hk as (cu2 & H2 & Hk). eauto using matches.
  - apply IH1 in Hrun as (cu' & H1 & Hk). eauto using matches.
  - destruct (pos cu =? 0)%nat eqn:Hp; [|done].
    apply Nat.eqb_eq in Hp. eauto using matches.
  - destruct (rest cu) as [|c [|d s]] eqn:Hr; try done.
    + eauto using matches.
    + destruct c as [|p]; [done|].
      destruct (decide (N.pos p = 10)) as [Heq|Hne].
      * injection Heq as ->. eexists. split; [apply M_Eos; by right|done].
      * exfalso. clear -Hrun Hne.
        do 4 (destruct p as [p|p|]; try done).
    + destruct c as [|p]; [done|]. do 4 (destruct p as [p|p|]; try done).
Qed.

Lemma taken_app s cu cu' : rest cu = s ++ rest cu' → taken cu cu' = s.
Proof.
  intros Hr. unfold taken. rewrite Hr, length_app.
  replace (length s + length (rest cu') - length (rest cu'))%nat
    with (length s) by lia.
  by rewrite take_app_length.
Qed.

(** A match consumes a prefix of what is left. *)
Lemma matches_rest r cu cu' :
  matches r cu cu' → ∃ s, rest cu = s ++ rest cu'.
Proof.
  induction 1 as [cu|r p cu ch s' _ Hr _|r1 r2 cu cu1 cu2 _ [s1 H1] _ [s2 H2]
                  | | | | | |r cu cu1 cu2 _ [s1 H1] _ [s2 H2]
                  | |r cu cu1 cu2 _ [s1 H1] _ [s2 H2]| | |];
    try (by exists []); try done.
  - exists [ch]. by rewrite Hr.
  - exists (s1 ++ s2). by rewrite H1, H2, app_assoc.
  - exists (s1 ++ s2). by rewrite H1, H2, app_assoc.
  - exists (s1 ++ s2). by rewrite H1, H2, app_assoc.
Qed.

Lemma matches_taken r cu cu' :
  matches r cu cu' → rest cu = taken cu cu' ++ rest cu'.
Proof.
  intros H. destruct (matches_rest _ _ _ H) as [s Hs].
  by rewrite (taken_app s).
Qed.

Lemma matches_groupless r cu cu' :
  matches r cu cu' → groupless r = true → caps cu' = caps cu.
Proof.
  induction 1 as [|r p cu ch s' Hp _ _| | | | | | | | | | | |]; simpl;
    intros Hg; try done;
    try (apply andb_prop in Hg as [Hg1 Hg2]); try (by auto); try congruence.
  - rewrite IHmatches2, IHmatches1; auto.
  - rewrite IHmatches2, IHmatches1; auto.
  - rewrite IHmatches2, IHmatches1; auto.
Qed.

(** Inversion of [matches] on a pattern of known shape. *)
Ltac invert_matches H :=
  inversion H; subst; clear H;
  try match goal with
      | Hc : char_test _ = Some _ |- _ => by simpl in Hc
      end.

Lemma matches_char_inv r p cu cu' :
  char_test r = Some p →
  matches r cu cu' →
  ∃ ch, rest cu = ch :: rest cu' ∧ p ch = true ∧ caps cu' = caps cu.
Proof.
  intros Hp H. destruct r; try discriminate; invert_matches H;
    match goal with
    | H1 : char_test _ = Some ?p1, H2 : char_test _ = Some ?p2 |- _ =>
        rewrite H1 in H2; injection H2 as <-
    end; eauto.
Qed.

Lemma matches_cat_inv r1 r2 cu cu2 :
  matches (Cat r1 r2) cu cu2 → ∃ cu1, matches r1 cu cu1 ∧ matches r2 cu1 cu2.
Proof. intros H. invert_matches H. eauto. Qed.

Lemma matches_or_inv r1 r2 cu cu' :
  matches (Or r1 r2) cu cu' → matches r1 cu cu' ∨ matches r2 cu cu'.
Proof. intros H. invert_matches H; auto. Qed.

Lemma matches_opt_inv r cu cu' :
  matches (Opt r) cu cu' → matches r cu cu' ∨ cu' = cu.
Proof. intros H. invert_matches H; auto. Qed.

Lemma matches_group_inv g r cu cu2 :
  matches (Group g r) cu cu2 →
  ∃ cu', matches r cu cu'
         ∧ cu2 = Cursor (pos cu') (rest cu') ((g, taken cu cu') :: caps cu').
Proof. intros H. invert_matches H. eauto. Qed.

Lemma matches_eos_inv cu cu' :
  matches Eos cu cu' → cu' = cu ∧ (rest cu = [] ∨ rest cu = [10]).
Proof. intros H. invert_matches H. auto. Qed.

(** A repetition of one-character patterns consumes characters that pass
    the test, and closes no group. *)
Lemma matches_star_chars r p cu cu' :
  char_test r = Some p →
  matches (Star r) cu cu' →
  ∃ s, rest cu = s ++ rest cu' ∧ Forall (λ ch, p ch = true) s
       ∧ caps cu' = caps cu.
Proof.
  intros Hp H. remember (Star r) as sr eqn:Hsr.
  induction H as [| | | | | | |r0 cu|r0 cu cu1 cu2 H1 _ H2 IH2| | | | |];
    try discriminate.
  - subst. by simpl in Hp.
  - exists []. split; [done|]. split; [constructor|done].
  - injection Hsr as ->.
    destruct (IH2 eq_refl) as (s2 & Hr2 & Hs2 & Hc2).
    destruct (matches_char_inv _ _ _ _ Hp H1) as (ch & Hr & Hch & Hc).
    exists (ch :: s2). rewrite Hr, Hr2, Hc2, Hc. split; [done|]. split; [by constructor|done].
Qed.

(** A word of the pattern consumes as many characters as it has letters,
    each matching its letter, and closes no group. *)
Lemma matches_word w : ∀ cu cu',
  matches (word w) cu cu' →
  ∃ s, rest cu = s ++ rest cu'
       ∧ Forall2 (λ c ch, ci_match c ch = true) w s
       ∧ caps cu' = caps cu.
Proof.
  unfold word. induction w as [|c w IH]; intros cu cu' H.
  - invert_matches H. exists []. split; [done|]. split; [constructor|done].
  - destruct w as [|d w].
    + destruct (matches_char_inv (Ci c) _ _ _ eq_refl H) as (ch & Hr & Hch & Hc).
      exists [ch]. rewrite Hr. split; [done|]. split; [by repeat constructor|done].
    + change (cat (Ci <$> c :: d :: w))
        with (Cat (Ci c) (cat (Ci <$> d :: w))) in H.
      apply matches_cat_inv in H as (cu1 & H1 & H2).
      destruct (matches_char_inv (Ci c) _ _ _ eq_refl H1) as (ch & Hr & Hch & Hc).
      destruct (IH _ _ H2) as (s & Hr2 & Hw & Hc2).
      exists (ch :: s). rewrite Hr, Hr2, Hc2, Hc. split; [done|]. split; [by constructor|done].
Qed.

Lemma search_from_sound r s : ∀ p m,
  search_from r p s = Some m →
  ∃ p' pre s', s = pre ++ s' ∧ run r (Cursor p' s' []) accept = Some m.
Proof.
  induction s as [|c s IH]; intros p m H; simpl in H.
  - destruct (run r (Cursor p [] []) accept) eqn:Hrun; [|done].
    exists p, [], []. by injection H as <-.
  - destruct (run r (Cursor p (c :: s) []) accept) eqn:Hrun.
    + exists p, [], (c :: s). by injection H as <-.
    + destruct (IH _ _ H) as (p' & pre & s' & -> & Hr).
      by exists p', (c :: pre), s'.
Qed.

Lemma matches_suffix r cu cu' : matches r cu cu' → rest cu' `suffix_of` rest cu.
Proof. intros H. destruct (matches_rest _ _ _ H) as [s Hs]. by exists s. Qed.

(** ** Stripped strings *)

Lemma lstrip_head s c : head (lstrip s) = Some c → isspace c = false.
Proof.
  induction s as [|d s IH]; simpl; [done|].
  destruct (isspace d) eqn:Hd; [done|]. simpl. by intros [= <-].
Qed.

(** A stripped string does not end in white space. *)
Lemma strip_last s c : last (strip s) = Some c → isspace c = false.
Proof.
  unfold strip, rstrip. rewrite last_reverse. apply lstrip_head.
Qed.

(** A string that ends in something other than white space does not strip
    to nothing. *)
Lemma strip_snoc_nonempty s c : isspace c = false → strip (s ++ [c]) ≠ [].
Proof.
  intros Hc. unfold strip, rstrip.
  rewrite (lstrip_snoc _ _ Hc), reverse_snoc. simpl. rewrite Hc.
  rewrite reverse_cons. by destruct (reverse (reverse (lstrip s))).
Qed.

Lemma last_whitespace ws tail c :
  Forall (λ ch, isspace ch = true) ws →
  tail = [] ∨ tail = [10] →
  last (ws ++ tail) = Some c → isspace c = true.
Proof.
  intros Hws [->| ->].
  - rewrite app_nil_r. intros Hl.
    eapply Forall_forall in Hws; [exact Hws|]. by apply last_Some_elem_of.
  - rewrite last_snoc. by intros [= <-].
Qed.

(** The name captured from a stripped label line is not empty once
    stripped. *)
Lemma archetype_name_nonempty l m :
  match_ archetype_re (strip l) = Some m → strip (group 1 m) ≠ [].
Proof.
  unfold match_. intros Hrun.
  apply run_sound in Hrun as (cuf & H & Hacc).
  injection Hacc as <-.
  unfold archetype_re in H. cbn [cat] in H.
  apply matches_cat_inv in H as (cu1 & H1 & H).
  apply matches_cat_inv in H as (cu2 & H2 & H).
  apply matches_cat_inv in H as (cu3 & H3 & H).
  apply matches_cat_inv in H as (cu4 & H4 & H).
  apply matches_cat_inv in H as (cu5 & H5 & H).
  apply matches_cat_inv in H as (cu6 & H6 & H).
  apply matches_cat_inv in H as (cu7 & H7 & H8).
  apply matches_eos_inv in H8 as [-> Htail].
  assert (Hcaps : caps cu5 = []).
  { rewrite (matches_groupless _ _ _ H5 eq_refl), (matches_groupless _ _ _ H4 eq_refl),
      (matches_groupless _ _ _ H3 eq_refl), (matches_groupless _ _ _ H2 eq_refl),
      (matches_groupless _ _ _ H1 eq_refl). done. }
  assert (Hsuf : rest cu5 `suffix_of` strip l).
  { etrans; [eapply matches_suffix, H5|]. etrans; [eapply matches_suffix, H4|].
    etrans; [eapply matches_suffix, H3|]. etrans; [eapply matches_suffix, H2|].
    apply (matches_suffix _ _ _ H1). }
  apply matches_group_inv in H6 as (cu' & Hg & ->).
  pose proof (matches_taken _ _ _ Hg) as Hrest.
  pose proof (matches_groupless _ _ _ Hg eq_refl) as Hc'.
  assert (Hne : taken cu5 cu' ≠ []).
  { unfold LazyPlus in Hg. apply matches_cat_inv in Hg as (cua & Ha & Hb).
    destruct (matches_char_inv Dot _ _ _ eq_refl Ha) as (ch & Hr & _ & _).
    destruct (matches_rest _ _ _ Hb) as [s2 Hs2].
    rewrite (taken_app (ch :: s2)); [done|]. by rewrite Hr, Hs2. }
  destruct (matches_star_chars Space _ _ _ eq_refl H7) as (ws & Hws & Hall & Hc7).
  simpl in Hws, Hc7. rewrite Hc7, Hc', Hcaps. simpl.
  set (g := taken cu5 cu') in *.
  destruct Hsuf as [pre Hpre]. rewrite Hrest, Hws in Hpre.
  destruct (last (ws ++ rest cu7)) as [c|] eqn:Hl.
  - exfalso.
    pose proof (last_whitespace _ _ _ Hall Htail Hl) as Hsp.
    assert (last (strip l) = Some c) as Hlast.
    { rewrite Hpre, last_app, last_app, Hl. done. }
    apply strip_last in Hlast. congruence.
  - apply last_None in Hl. rewrite Hl, app_nil_r in Hpre.
    destruct (last g) as [c|] eqn:Hlg; [|by apply last_None in Hlg].
    assert (last (strip l) = Some c) as Hlast.
    { rewrite Hpre, last_app, Hlg. done. }
    apply strip_last in Hlast.
    apply last_Some in Hlg as [g' ->]. by apply strip_snoc_nonempty.
Qed.

Lemma lookahead_name_nonempty raw js i name i' :
  lookahead raw js i = Some (name, i') → name ≠ [].
Proof.
  induction js as [|j js IH]; simpl; [done|].
  destruct (lines raw !! (i + j)%nat) as [l|] eqn:Hl; [|done].
  destruct (match_ archetype_re (strip l)) as [m|] eqn:Hm; [|done].
  intros [= <- <-]. by eapply archetype_name_nonempty.
Qed.

(** ** Trait codes *)

Lemma is_ascii_Forall s : is_ascii s = true ↔ Forall (λ c, c < 128) s.
Proof.
  unfold is_ascii. rewrite forallb_forall, Forall_forall.
  split; intros H c Hc.
  - apply N.ltb_lt, H. by apply list_elem_of_In.
  - apply N.ltb_lt, H. by apply list_elem_of_In.
Qed.

Lemma is_ascii_app s t : is_ascii (s ++ t) = is_ascii s && is_ascii t.
Proof. unfold is_ascii. apply forallb_app. Qed.

(** On an ASCII character that matches a lower-case pattern letter, the
    case conversions give the letter and its capital. *)
Lemma ci_match_ascii c ch :
  ci_match c ch = true → ch < 128 → is_ascii_lower c = true →
  lower_char ch = [c] ∧ upper_char ch = [c - 32].
Proof.
  unfold ci_match, sre_lower, lower_char, upper_char, is_ascii_lower, is_ascii_upper.
  intros Hm Hch Hc.
  apply andb_prop in Hc as [Hc1 Hc2].
  apply N.leb_le in Hc1, Hc2.
  assert ((ch =? 304) = false) as H304 by (apply N.eqb_neq; lia).
  assert ((ch =? 8490) = false) as H8490 by (apply N.eqb_neq; lia).
  assert ((ch =? 305) = false) as H305 by (apply N.eqb_neq; lia).
  assert ((ch =? 383) = false) as H383 by (apply N.eqb_neq; lia).
  rewrite H304, H8490, H305, H383 in *. rewrite !andb_false_r, !orb_false_r in Hm.
  destruct ((65 <=? ch) && (ch <=? 90)) eqn:Hup.
  - apply andb_prop in Hup as [Hu1 Hu2]. apply N.leb_le in Hu1, Hu2.
    apply N.eqb_eq in Hm. subst c.
    assert (((97 <=? ch) && (ch <=? 122)) = false) as ->.
    { apply andb_false_iff. left. apply N.leb_gt. lia. }
    split; [done|]. f_equal. lia.
  - apply N.eqb_eq in Hm. subst c.
    assert (((97 <=? ch) && (ch <=? 122)) = true) as ->.
    { apply andb_true_intro. split; apply N.leb_le; lia. }
    split; [done|]. done.
Qed.

Lemma lower_ascii_word w s :
  Forall2 (λ c ch, ci_match c ch = true) w s →
  is_ascii s = true → forallb is_ascii_lower w = true →
  lower s = w.
Proof.
  induction 1 as [|c ch w s Hm _ IH]; [done|]. simpl.
  intros Hs Hw. apply andb_prop in Hs as [Hch Hs]. apply andb_prop in Hw as [Hc Hw].
  apply N.ltb_lt in Hch.
  destruct (ci_match_ascii _ _ Hm Hch Hc) as [Hl _].
  unfold lower in *. cbn [mbind list_bind]. rewrite Hl. simpl. f_equal. by apply IH.
Qed.

(** An ASCII spelling of a lower-case word capitalises to the word
    capitalised. *)
Lemma capitalize_ascii_word w s :
  Forall2 (λ c ch, ci_match c ch = true) w s →
  is_ascii s = true → forallb is_ascii_lower w = true →
  capitalize s = capitalize w.
Proof.
  intros H Hs Hw. destruct H as [|c ch w s Hm H]; [done|].
  simpl in Hs, Hw. apply andb_prop in Hs as [Hch Hs]. apply andb_prop in Hw as [Hc Hw].
  apply N.ltb_lt in Hch.
  destruct (ci_match_ascii _ _ Hm Hch Hc) as [_ Hu].
  unfold capitalize. rewrite Hu, (lower_ascii_word _ _ H Hs Hw).
  assert (Hcc : upper_char c = [c - 32]).
  { unfold upper_char. by rewrite Hc. }
  rewrite Hcc. f_equal.
  clear -Hw. induction w as [|d w IH]; [done|]. simpl in Hw.
  apply andb_prop in Hw as [Hd Hw]. unfold lower in *. cbn [mbind list_bind].
  rewrite <- IH by done. simpl. f_equal.
  unfold lower_char, is_ascii_lower, is_ascii_upper in *.
  apply andb_prop in Hd as [Hd1 Hd2]. apply N.leb_le in Hd1, Hd2.
  assert (((65 <=? d) && (d <=? 90)) = false) as ->.
  { apply andb_false_iff. right. apply N.leb_gt. lia. }
  assert ((d =? 304) = false) as -> by (apply N.eqb_neq; lia).
  assert ((d =? 8490) = false) as -> by (apply N.eqb_neq; lia).
  done.
Qed.

(** The group of a level holds an ASCII spelling of a level. *)
Lemma matches_level g cu cu' :
  matches (level g) cu cu' →
  ∃ lv, rest cu = lv ++ rest cu' ∧ caps cu' = (g, lv) :: caps cu
        ∧ (is_ascii lv = true → capitalize lv ∈ levels).
Proof.
  unfold level. intros H.
  apply matches_group_inv in H as (cu1 & H & ->). simpl.
  assert (∃ w, w ∈ [py "low"; py "medium"; py "high"] ∧ matches (word w) cu cu1)
    as (w & Hw & Hm).
  { apply matches_or_inv in H as [H|H]; [eexists; split; [|exact H]; set_solver|].
    apply matches_or_inv in H as [H|H]; eexists; (split; [|exact H]); set_solver. }
  destruct (matches_word _ _ _ Hm) as (lv & Hr & Hci & Hc).
  exists lv. rewrite (taken_app lv) by done. rewrite Hc.
  split; [done|]. split; [done|]. intros Hascii.
  assert (forallb is_ascii_lower w = true ∧ capitalize w ∈ levels) as [Hlow Hcap].
  { apply list_elem_of_In in Hw. simpl in Hw.
    destruct Hw as [<-|[<-|[<-|[]]]];
      (split; [vm_compute; reflexivity|vm_compute; repeat constructor]). }
  by rewrite (capitalize_ascii_word _ _ Hci Hascii Hlow).
Qed.

Lemma is_ascii_suffix s' s : s' `suffix_of` s → is_ascii s = true → is_ascii s' = true.
Proof.
  intros [pre ->]. rewrite is_ascii_app. intros H. by apply andb_prop in H as [_ H].
Qed.

(** One trait of a header closes its group on an ASCII spelling of a
    level. *)
Lemma matches_trait name g cu cu' :
  matches (trait name g) cu cu' →
  is_ascii (rest cu) = true →
  ∃ lv, caps cu' = (g, lv) :: caps cu ∧ capitalize lv ∈ levels
        ∧ is_ascii (rest cu') = true.
Proof.
  unfold trait. cbn [cat]. intros H Hascii.
  apply matches_cat_inv in H as (cu1 & H1 & H).
  apply matches_cat_inv in H as (cu2 & H2 & H).
  apply matches_cat_inv in H as (cu3 & H3 & H).
  apply matches_cat_inv in H as (cu4 & H4 & H5).
  destruct (matches_word _ _ _ H1) as (_ & _ & _ & Hc1).
  pose proof (matches_groupless _ _ _ H2 eq_refl) as Hc2.
  pose proof (matches_groupless _ _ _ H3 eq_refl) as Hc3.
  pose proof (matches_groupless _ _ _ H4 eq_refl) as Hc4.
  assert (Hsuf : rest cu4 `suffix_of` rest cu).
  { etrans; [eapply matches_suffix, H4|]. etrans; [eapply matches_suffix, H3|].
    etrans; [eapply matches_suffix, H2|]. apply (matches_suffix _ _ _ H1). }
  pose proof (is_ascii_suffix _ _ Hsuf Hascii) as Hascii4.
  destruct (matches_level _ _ _ H5) as (lv & Hr & Hc & Hlv).
  rewrite Hr, is_ascii_app in Hascii4. apply andb_prop in Hascii4 as [Ha Hb].
  exists lv. rewrite Hc, Hc4, Hc3, Hc2, Hc1. auto.
Qed.

Lemma matches_filler cu cu' :
  matches (LazyStar Dot) cu cu' →
  is_ascii (rest cu) = true →
  caps cu' = caps cu ∧ is_ascii (rest cu') = true.
Proof.
  intros H Hascii. split; [by apply (matches_groupless _ _ _ H)|].
  eapply is_ascii_suffix; [eapply matches_suffix, H|done].
Qed.

Lemma elem_of_trait_codes O C E A N_ :
  O ∈ levels → C ∈ levels → E ∈ levels → A ∈ levels → N_ ∈ levels →
  join [45] [O; C; E; A; N_] ∈ trait_codes.
Proof.
  intros HO HC HE HA HN. unfold trait_codes.
  apply list_elem_of_bind. exists O. split; [|done].
  apply list_elem_of_bind. exists C. split; [|done].
  apply list_elem_of_bind. exists E. split; [|done].
  apply list_elem_of_bind. exists A. split; [|done].
  apply list_elem_of_bind. exists N_. split; [|done].
  by apply list_elem_of_singleton.
Qed.

(** The code of a header line written in ASCII is one of the 243 trait
    codes. *)
Lemma header_code_ascii line m :
  search header_re line = Some m →
  is_ascii line = true →
  code_of_groups (groups 5 m) ∈ trait_codes.
Proof.
  intros Hs Hascii. unfold search in Hs.
  apply search_from_sound in Hs as (p & pre & s & -> & Hrun).
  rewrite is_ascii_app in Hascii. apply andb_prop in Hascii as [_ Hascii].
  apply run_sound in Hrun as (cuf & H & Hacc). injection Hacc as <-.
  unfold header_re in H. cbn [cat] in H.
  apply matches_cat_inv in H as (cu1 & H1 & H).
  apply matches_cat_inv in H as (cu1' & F1 & H).
  apply matches_cat_inv in H as (cu2 & H2 & H).
  apply matches_cat_inv in H as (cu2' & F2 & H).
  apply matches_cat_inv in H as (cu3 & H3 & H).
  apply matches_cat_inv in H as (cu3' & F3 & H).
  apply matches_cat_inv in H as (cu4 & H4 & H).
  apply matches_cat_inv in H as (cu4' & F4 & H5).
  destruct (matches_trait _ _ _ _ H1 Hascii) as (g1 & C1 & L1 & A1).
  destruct (matches_filler _ _ F1 A1) as [C1' A1'].
  destruct (matches_trait _ _ _ _ H2 A1') as (g2 & C2 & L2 & A2).
  destruct (matches_filler _ _ F2 A2) as [C2' A2'].
  destruct (matches_trait _ _ _ _ H3 A2') as (g3 & C3 & L3 & A3).
  destruct (matches_filler _ _ F3 A3) as [C3' A3'].
  destruct (matches_trait _ _ _ _ H4 A3') as (g4 & C4 & L4 & A4).
  destruct (matches_filler _ _ F4 A4) as [C4' A4'].
  destruct (matches_trait _ _ _ _ H5 A4') as (g5 & C5 & L5 & A5).
  rewrite C5, C4', C4, C3', C3, C2', C2, C1', C1. simpl.
  by apply elem_of_trait_codes.
Qed.

(** ** Invariants of the scan *)

(** What every turn keeps, the scan keeps. *)
Lemma scan_invariant (P : scanner → Prop) raw :
  (∀ i r st, raw !! i = Some r → P st → P (turn raw i (strip r) r st).2) →
  ∀ fuel i st st', P st → scan raw fuel i st = Some st' → P st'.
Proof.
  intros Hturn. induction fuel as [|fuel IH]; intros i st st' HP Hscan.
  - destruct (raw !! i) as [r|] eqn:Hr.
    + cbn [scan] in Hscan. by rewrite lines_lookup, Hr in Hscan.
    + rewrite (scan_end _ _ _ _ Hr) in Hscan. by injection Hscan as <-.
  - destruct (raw !! i) as [r|] eqn:Hr.
    + rewrite (scan_turn _ _ _ _ _ Hr) in Hscan.
      eapply IH; [|exact Hscan]. by apply Hturn.
    + rewrite (scan_end _ _ _ _ Hr) in Hscan. by injection Hscan as <-.
Qed.

Lemma well_formed_insert m k t :
  well_formed m → k ≠ [] → well_formed (<[k := strip t]> m).
Proof.
  intros Hm Hk k' t' Hl. destruct (decide (k = k')) as [<-|Hne].
  - rewrite lookup_insert_eq in Hl. injection Hl as <-.
    split; [done|apply strip_idemp].
  - rewrite lookup_insert_ne in Hl by done. by apply Hm.
Qed.

Lemma flush_well_formed st :
  well_formed (by_code st) → well_formed (by_name st) →
  well_formed (by_code (flush st)) ∧ well_formed (by_name (flush st)).
Proof.
  intros Hc Hn. unfold flush.
  destruct (current_code st) as [[|c code]|]; simpl; try done.
  case_bool_decide; simpl; [|done].
  split; [by apply well_formed_insert|].
  destruct (current_name st) as [[|n name]|]; simpl; try done.
  by apply well_formed_insert.
Qed.

(** X3.  Whatever the document, the two maps have no empty key and hold
    stripped texts only. *)
Theorem extract_well_formed raw bc bn :
  extract raw = Some (bc, bn) → well_formed bc ∧ well_formed bn.
Proof.
  unfold extract. intros H.
  destruct (scan raw (length (lines raw)) 0 (Scanner ∅ ∅ None None []))
    as [st|] eqn:Hscan; [|done].
  simpl in H. injection H as <- <-.
  apply (scan_invariant
           (λ st, well_formed (by_code st) ∧ well_formed (by_name st))
           raw) in Hscan.
  - destruct Hscan as [Hc Hn]. by apply flush_well_formed.
  - intros i r st0 _ [Hc Hn].
    destruct (turn_maps raw i (strip r) r st0) as [-> ->].
    destruct (search header_re (strip r)); [|done].
    by apply flush_well_formed.
  - split; intros k t Hl; simpl in Hl; by rewrite lookup_empty in Hl.
Qed.

(** X2.  A document in which no paragraph is a header gives two empty
    maps. *)
Theorem extract_without_header raw :
  (∀ r, r ∈ raw → search header_re (strip r) = None) →
  extract raw = Some (∅, ∅).
Proof.
  intros Hno. destruct (extract_returns raw) as [[bc bn] Hex].
  rewrite Hex. unfold extract in Hex.
  destruct (scan raw (length (lines raw)) 0 (Scanner ∅ ∅ None None []))
    as [st|] eqn:Hscan; [|done].
  apply (scan_invariant (λ st, st = Scanner ∅ ∅ None None []) raw) in Hscan.
  - subst st. simpl in Hex. by injection Hex as <- <-.
  - intros i r st0 Hr ->. rewrite turn_body; [done|].
    apply Hno. by eapply list_elem_of_lookup_2.
  - done.
Qed.

Lemma lstrip_suffix s : lstrip s `suffix_of` s.
Proof.
  induction s as [|c s IH]; simpl; [done|].
  destruct (isspace c); [by apply suffix_cons_r|done].
Qed.

Lemma is_ascii_reverse s : is_ascii (reverse s) = is_ascii s.
Proof.
  apply eq_true_iff_eq. rewrite !is_ascii_Forall. apply Forall_reverse.
Qed.

Lemma is_ascii_strip s : is_ascii s = true → is_ascii (strip s) = true.
Proof.
  intros H. unfold strip, rstrip. rewrite is_ascii_reverse.
  eapply is_ascii_suffix; [apply lstrip_suffix|].
  rewrite is_ascii_reverse.
  eapply is_ascii_suffix; [apply lstrip_suffix|done].
Qed.

(** X4.  In a document written in ASCII, every key of the by-code map is
    one of the 243 trait codes. *)
Theorem extract_trait_codes raw bc bn :
  (∀ r, r ∈ raw → is_ascii r = true) →
  extract raw = Some (bc, bn) →
  ∀ code text, bc !! code = Some text → code ∈ trait_codes.
Proof.
  intros Hascii. unfold extract. intros H.
  destruct (scan raw (length (lines raw)) 0 (Scanner ∅ ∅ None None []))
    as [st|] eqn:Hscan; [|done].
  simpl in H. injection H as <- _.
  set (P := λ st : scanner,
         (∀ code text, by_code st !! code = Some text → code ∈ trait_codes)
         ∧ (∀ code, current_code st = Some code → code ∈ trait_codes)).
  assert (Hflush : ∀ st, P st → P (flush st)).
  { intros st0 [Hm Hc]. split.
    - intros code' text. unfold flush.
      destruct (truthy (current_code st0) && bool_decide (buffer st0 ≠ []))
        eqn:Hcommit; simpl; [|apply Hm].
      destruct (current_code st0) as [code|] eqn:Hcode; [|done]. simpl.
      intros Hl. destruct (decide (code = code')) as [<-|Hne]; [by apply Hc|].
      rewrite lookup_insert_ne in Hl by done. by eapply Hm.
    - intros code. unfold flush. destruct (_ && _); simpl; apply Hc. }
  apply (scan_invariant P raw) in Hscan.
  - apply Hflush in Hscan. apply Hscan.
  - intros i r st0 Hr HP. unfold turn.
    destruct (search header_re (strip r)) as [m|] eqn:Hm.
    + apply Hflush in HP as [Hmap _].
      assert (Hcode : code_of_groups (groups 5 m) ∈ trait_codes).
      { eapply header_code_ascii; [exact Hm|].
        apply is_ascii_strip, Hascii. by eapply list_elem_of_lookup_2. }
      destruct (lookahead raw [1; 2; 3]%nat i) as [[name i']|]; simpl;
        (split; [exact Hmap|by intros code [= <-]]).
    + simpl. by destruct (truthy (current_code st0)).
  - split; [intros code text Hl; simpl in Hl; by rewrite lookup_empty in Hl|done].
Qed.

(** A label is found at one of the three paragraphs after the header. *)
Lemma lookahead_window raw js i name i' :
  lookahead raw js i = Some (name, i') → ∃ j, j ∈ js ∧ i' = (i + j)%nat.
Proof.
  induction js as [|j js IH]; simpl; [done|].
  destruct (lines raw !! (i + j)%nat) as [l|]; [|done].
  destruct (match_ archetype_re (strip l)).
  - intros [= _ <-]. exists j. split; [by left|done].
  - intros H. destruct (IH H) as (j' & Hj & ->). exists j'. split; [by right|done].
Qed.

Lemma lookahead_cons raw j js i :
  lookahead raw (j :: js) i =
    match raw !! (i + j)%nat with
    | None => None
    | Some r =>
        match label_at raw (i + j) with
        | Some name => Some (name, (i + j)%nat)
        | None => lookahead raw js i
        end
    end.
Proof.
  cbn [lookahead]. unfold label_at. rewrite lines_lookup.
  destruct (raw !! (i + j)%nat) as [r|]; [|done].
  cbn [fmap option_fmap option_map]. rewrite strip_idemp.
  by destruct (match_ archetype_re (strip r)).
Qed.

(** The lookahead finds nothing where no paragraph of the window is a
    label. *)
Lemma lookahead_none raw js i :
  (∀ j, j ∈ js → label_at raw (i + j) = None) → lookahead raw js i = None.
Proof.
  induction js as [|j js IH]; intros Hnone; [done|].
  rewrite lookahead_cons. destruct (raw !! (i + j)%nat); [|done].
  rewrite (Hnone j) by (by left). apply IH. intros j' Hj'. apply Hnone. by right.
Qed.

(** The lookahead finds the first label of the window. *)
Lemma lookahead_first raw pre j post i name :
  (∀ j', j' ∈ pre → (j' ≤ j)%nat ∧ label_at raw (i + j') = None) →
  label_at raw (i + j) = Some name →
  lookahead raw (pre ++ j :: post) i = Some (name, (i + j)%nat).
Proof.
  intros Hpre Hj. induction pre as [|j' pre IH]; cbn [app].
  - rewrite lookahead_cons, Hj. destruct (raw !! (i + j)%nat) eqn:Hr; [done|].
    unfold label_at in Hj. by rewrite Hr in Hj.
  - rewrite lookahead_cons. destruct (Hpre j') as [Hle Hnone]; [by left|].
    rewrite Hnone.
    destruct (raw !! (i + j')%nat) eqn:Hr.
    + apply IH. intros j'' Hj''. apply Hpre. by right.
    + unfold label_at in Hj.
      rewrite (lookup_ge_None_2 raw (i + j)) in Hj; [done|].
      apply lookup_ge_None_1 in Hr. lia.
Qed.

Lemma label_at_nonempty raw p name : label_at raw p = Some name → name ≠ [].
Proof.
  unfold label_at. destruct (raw !! p) as [r|]; [|done].
  destruct (match_ archetype_re (strip r)) as [m|] eqn:Hm; [|done].
  intros [= <-]. by eapply archetype_name_nonempty.
Qed.

(** X5.  On a header line the scanner commits what it has, takes the code
    from the five levels, and names the section after the first archetype
    label among the next three paragraphs, continuing after that label:
    when paragraph [i + j] of the document is a label ([1 <= j <= 3]) and
    no paragraph between the header and it is, the name is that label's,
    it is not empty, and the scan goes on at [i + j + 1].  Only when none
    of the three is a label (or the document ends before) is the name
    [Unknown_] followed by the index of the header line, and the scan goes
    on at [i + 1]. *)
Theorem turn_on_header raw i line r st m :
  search header_re line = Some m →
  (∀ j name, (1 ≤ j ≤ 3)%nat →
     (∀ j', (1 ≤ j' < j)%nat → label_at raw (i + j') = None) →
     label_at raw (i + j) = Some name →
     name ≠ []
     ∧ turn raw i line r st
       = (S (i + j), Scanner (by_code (flush st)) (by_name (flush st))
                       (Some (code_of_groups (groups 5 m))) (Some name) []))
  ∧ ((∀ j, (1 ≤ j ≤ 3)%nat → label_at raw (i + j) = None) →
     turn raw i line r st
     = (S i, Scanner (by_code (flush st)) (by_name (flush st))
               (Some (code_of_groups (groups 5 m)))
               (Some (py "Unknown_" ++ str_of_nat i)) [])).
Proof.
  intros Hm. split.
  - intros j name Hj Hnone Hlabel.
    pose proof (label_at_nonempty _ _ _ Hlabel) as Hne. split; [done|].
    apply (turn_header _ _ _ _ _ _ _ _ Hm); [|done].
    assert (∃ pre post, [1; 2; 3]%nat = pre ++ j :: post
              ∧ ∀ j', j' ∈ pre → (1 ≤ j' < j)%nat) as (pre & post & -> & Hpre).
    { destruct (decide (j = 1%nat)) as [->|].
      { exists [], [2; 3]%nat. split; [done|]. intros j' Hj'. by apply elem_of_nil in Hj'. }
      destruct (decide (j = 2%nat)) as [->|].
      { exists [1%nat], [3%nat]. split; [done|]. intros j' Hj'.
        apply list_elem_of_singleton in Hj' as ->. lia. }
      assert (j = 3%nat) as -> by lia.
      exists [1; 2]%nat, []. split; [done|]. intros j' Hj'.
      apply elem_of_cons in Hj' as [->|Hj']; [lia|].
      apply list_elem_of_singleton in Hj' as ->. lia. }
    apply lookahead_first; [|done].
    intros j' Hj'. specialize (Hpre j' Hj'). split; [lia|]. by apply Hnone.
  - intros Hnone. apply (turn_header_unnamed _ _ _ _ _ _ Hm).
    apply lookahead_none. intros j Hj. apply Hnone.
    repeat (apply elem_of_cons in Hj as [->|Hj]; [lia|]).
    by apply elem_of_nil in Hj.
Qed.

(** Outside ASCII the code need not be one of the 243: a dotless i
    (U+0131) matches the [i] of [high] and stays as it is. *)
Lemma dotless_i_code :
  code_of_groups (groups 5 (default []
    (search header_re
       (py "Openness: h" ++ [305] ++ py "gh, Conscientiousness: Low, Extraversion: Low, Agreeableness: Low, Neuroticism: Low"))))
  = py "H" ++ [305] ++ py "gh-Low-Low-Low-Low".
Proof. vm_compute. reflexivity. Qed.

(** X1.  The scanning loop ends, within as many turns as the document has
    paragraphs, and the scanner returns for whatever is at the path. *)
Theorem scanner_returns (disk : str → docx_file) (file_path : str) (raw : list str) :
  is_Some (scan raw (length raw) 0 (Scanner ∅ ∅ None None []))
  ∧ is_Some (extract raw)
  ∧ is_Some (load_detailed_archetypes_docx disk file_path).
Proof.
  split; [apply scan_terminates; lia|].
  split; [apply extract_returns|apply load_detailed_archetypes_docx_returns].
Qed.

(** ** Paragraphs before the first header *)

Lemma flush_same_codes a b : same_codes a b → same_codes (flush a) (flush b).
Proof.
  intros (Hm & Hc & Hb). unfold same_codes, flush. rewrite Hm, Hc, Hb.
  by destruct (_ && _).
Qed.

Lemma lines_shift pre doc i :
  lines (pre ++ doc) !! (length pre + i)%nat = lines doc !! i.
Proof.
  rewrite !lines_lookup, lookup_app_r by lia. do 2 f_equal. lia.
Qed.

Lemma lookahead_shift pre doc js i :
  lookahead (pre ++ doc) js (length pre + i)
  = (λ ni, (ni.1, (length pre + ni.2)%nat)) <$> lookahead doc js i.
Proof.
  induction js as [|j js IH]; simpl; [done|].
  replace (length pre + i + j)%nat with (length pre + (i + j))%nat by lia.
  rewrite lines_shift.
  destruct (lines doc !! (i + j)%nat) as [l|]; [|done].
  by destruct (match_ archetype_re (strip l)).
Qed.

Lemma turn_shift pre doc i line r a b :
  same_codes a b →
  (turn (pre ++ doc) (length pre + i) line r a).1
    = (length pre + (turn doc i line r b).1)%nat
  ∧ same_codes (turn (pre ++ doc) (length pre + i) line r a).2
               (turn doc i line r b).2.
Proof.
  intros Hab. unfold turn.
  destruct (search header_re line) as [m|].
  - rewrite lookahead_shift.
    pose proof (flush_same_codes _ _ Hab) as (Hm & _ & Hb).
    destruct (lookahead doc [1; 2; 3]%nat i) as [[name i']|]; simpl.
    + destruct (truthy (Some name)); simpl; (split; [lia|done]).
    + split; [lia|done].
  - destruct Hab as (Hm & Hc & Hb). simpl. split; [lia|]. rewrite Hc.
    destruct (truthy (current_code b)); unfold same_codes; simpl; by rewrite ?Hb.
Qed.

Lemma scan_shift pre doc fuel : ∀ i a b,
  same_codes a b →
  match scan (pre ++ doc) fuel (length pre + i) a, scan doc fuel i b with
  | Some a', Some b' => same_codes a' b'
  | None, None => True
  | _, _ => False
  end.
Proof.
  induction fuel as [|fuel IH]; intros i a b Hab.
  - simpl. rewrite lines_shift, lookup_app_r by lia.
    replace (length pre + i - length pre)%nat with i by lia.
    destruct (lines doc !! i), (doc !! i); done.
  - destruct (doc !! i) as [r|] eqn:Hr.
    + assert (Hr' : (pre ++ doc) !! (length pre + i)%nat = Some r).
      { rewrite lookup_app_r by lia. rewrite <- Hr. f_equal. lia. }
      rewrite (scan_turn _ _ _ _ _ Hr'), (scan_turn _ _ _ _ _ Hr).
      destruct (turn_shift pre doc i (strip r) r a b Hab) as [-> Hab'].
      by apply IH.
    + assert (Hr' : (pre ++ doc) !! (length pre + i)%nat = None).
      { rewrite lookup_app_r by lia. rewrite <- Hr. f_equal. lia. }
      by rewrite (scan_end _ _ _ _ Hr'), (scan_end _ _ _ _ Hr).
Qed.

(** X6.  Paragraphs before the first header do not change the by-code
    map. *)
Theorem extract_ignores_preamble pre doc :
  (∀ r, r ∈ pre → search header_re (strip r) = None) →
  fst <$> extract (pre ++ doc) = fst <$> extract doc.
Proof.
  intros Hpre. unfold extract.
  assert (length (lines (pre ++ doc)) = (length pre + length (lines doc))%nat)
    as ->.
  { unfold lines. rewrite !length_fmap, length_app. done. }
  rewrite (scan_preamble (pre ++ doc) _ _ (length pre)); [|done| | |lia].
  2:{ intros i r Hi Hr. apply Hpre. rewrite lookup_app_l in Hr by done.
      by eapply list_elem_of_lookup_2. }
  2:{ rewrite length_app. lia. }
  pose proof (scan_shift pre doc (length (lines doc)) 0
                (Scanner ∅ ∅ None None []) (Scanner ∅ ∅ None None [])
                (conj eq_refl (conj eq_refl eq_refl))) as Hs.
  replace (length pre + 0)%nat with (length pre) in Hs by lia.
  destruct (scan (pre ++ doc) _ _ _) as [a|];
    destruct (scan doc _ _ _) as [b|]; try done.
  simpl. f_equal. by destruct (flush_same_codes _ _ Hs) as [-> _].
Qed.

(** ** The access-code store, further *)

Lemma upper_app s t : upper (s ++ t) = upper s ++ upper t.
Proof. unfold upper. apply bind_app. Qed.

Lemma token_hex_cons b bs : token_hex (b :: bs) = token_hex [b] ++ token_hex bs.
Proof. reflexivity. Qed.

(** The two characters a byte gives, and the byte read back from them. *)
Lemma byte_code b :
  ∃ c1 c2, upper (token_hex [b]) = [c1; c2]
           ∧ is_upper_hex c1 = true ∧ is_upper_hex c2 = true
           ∧ Byte.of_N (16 * hex_value c1 + hex_value c2) = Some b.
Proof. destruct b; do 2 eexists; (split; [vm_compute; reflexivity|]); vm_compute; auto. Qed.

Lemma new_code_bytes b0 b1 b2 b3 :
  new_code (b0, b1, b2, b3)
  = upper (token_hex [b0]) ++ upper (token_hex [b1])
    ++ upper (token_hex [b2]) ++ upper (token_hex [b3]).
Proof.
  unfold new_code.
  rewrite (token_hex_cons b0), (token_hex_cons b1), (token_hex_cons b2).
  by rewrite !upper_app.
Qed.

(** X9.  A new code is eight characters, each a digit or one of [A]..[F]. *)
Theorem new_code_format (e : entropy) :
  length (new_code e) = 8%nat ∧ forallb is_upper_hex (new_code e) = true.
Proof.
  destruct e as [[[b0 b1] b2] b3]. rewrite new_code_bytes.
  destruct (byte_code b0) as (c1 & c2 & -> & H1 & H2 & _).
  destruct (byte_code b1) as (c3 & c4 & -> & H3 & H4 & _).
  destruct (byte_code b2) as (c5 & c6 & -> & H5 & H6 & _).
  destruct (byte_code b3) as (c7 & c8 & -> & H7 & H8 & _).
  simpl. by rewrite H1, H2, H3, H4, H5, H6, H7, H8.
Qed.

(** X10.  Different random bytes give different codes. *)
Theorem new_code_injective (e e' : entropy) : new_code e = new_code e' → e = e'.
Proof.
  destruct e as [[[b0 b1] b2] b3], e' as [[[b0' b1'] b2'] b3'].
  rewrite !new_code_bytes.
  destruct (byte_code b0) as (c1 & c2 & -> & _ & _ & D0).
  destruct (byte_code b1) as (c3 & c4 & -> & _ & _ & D1).
  destruct (byte_code b2) as (c5 & c6 & -> & _ & _ & D2).
  destruct (byte_code b3) as (c7 & c8 & -> & _ & _ & D3).
  destruct (byte_code b0') as (d1 & d2 & -> & _ & _ & D0').
  destruct (byte_code b1') as (d3 & d4 & -> & _ & _ & D1').
  destruct (byte_code b2') as (d5 & d6 & -> & _ & _ & D2').
  destruct (byte_code b3') as (d7 & d8 & -> & _ & _ & D3').
  simpl. intros [= -> -> -> -> -> -> -> ->]. congruence.
Qed.

(** X11.  What [generate_free_code] does to the world. *)
Theorem generate_free_code_frame (e : entropy) (w : world) :
  (generate_free_code e w).1 = new_code e
  ∧ load_free_codes (generate_free_code e w).2 !! new_code e = Some (Entry false)
  ∧ (∀ other, other ≠ new_code e →
       load_free_codes (generate_free_code e w).2 !! other
       = load_free_codes w !! other)
  ∧ saves (generate_free_code e w).2
    = saves w ++ [<[new_code e := Entry false]> (load_free_codes w)]
  ∧ redeemable (new_code e) (generate_free_code e w).2 = true.
Proof.
  unfold generate_free_code. simpl. rewrite load_save.
  split; [done|]. split; [by rewrite lookup_insert_eq|].
  split; [intros other Hne; by rewrite lookup_insert_ne|].
  split; [done|]. unfold redeemable. by rewrite load_save, lookup_insert_eq.
Qed.

Lemma verify_keeps_codes code code' w :
  is_Some (load_free_codes w !! code) ↔
  is_Some (load_free_codes (verify_free_code code' w).2 !! code).
Proof.
  destruct (redeemable code' w) eqn:Hr.
  - rewrite (verify_granted _ _ Hr). simpl. rewrite load_save.
    destruct (decide (code' = code)) as [->|Hne].
    + rewrite lookup_insert_eq. unfold redeemable in Hr.
      destruct (load_free_codes w !! code); [|done]. split; eauto.
    + by rewrite lookup_insert_ne.
  - by rewrite (verify_refused _ _ Hr).
Qed.

(** X12.  No call removes a code from the store, and [verify_free_code] adds
    none. *)
Theorem codes_never_deleted (cs : list call) (w : world) (code : str) :
  (is_Some (load_free_codes w !! code) →
     is_Some (load_free_codes (calls cs w).2 !! code))
  ∧ (generates cs = 0%nat →
     is_Some (load_free_codes (calls cs w).2 !! code) →
     is_Some (load_free_codes w !! code)).
Proof.
  revert w. induction cs as [|[code'|e] cs IH]; intros w.
  - done.
  - rewrite calls_verify. simpl. destruct (IH (verify_free_code code' w).2) as [IH1 IH2].
    split.
    + intros H. by apply IH1, verify_keeps_codes.
    + intros Hg H. apply (verify_keeps_codes code code' w). by apply IH2.
  - rewrite calls_generate. destruct (IH (generate_free_code e w).2) as [IH1 _].
    split; [|done].
    intros H. apply IH1. unfold generate_free_code. simpl. rewrite load_save.
    destruct (decide (new_code e = code)) as [->|Hne].
    + rewrite lookup_insert_eq. eauto.
    + by rewrite lookup_insert_ne.
Qed.

(** X13.  The file is written once for each code issued and once for each
    code redeemed, and at no other time. *)
Theorem saves_count (cs : list call) (w : world) :
  length (saves (calls cs w).2)
  = (length (saves w) + generates cs + granted (calls cs w).1)%nat.
Proof.
  revert w. induction cs as [|[code|e] cs IH]; intros w.
  - simpl. lia.
  - rewrite calls_verify. cbn [fst snd generates granted]. rewrite IH.
    destruct (redeemable code w) eqn:Hr.
    + rewrite verify_answer, Hr, (verify_granted _ _ Hr). simpl.
      rewrite length_app. simpl. lia.
    + rewrite verify_answer, Hr, (verify_refused _ _ Hr). simpl. lia.
  - rewrite calls_generate, IH. simpl. rewrite length_app. simpl. lia.
Qed.

(** ** The registry loader, further *)

Lemma nonempty_dict_Some data d : nonempty_dict data = Some d → d ≠ [].
Proof. destruct data as [| | | | |[|m ms]]; simpl; try done. by intros [= <-]. Qed.

Lemma load_first_nonempty cwd files d :
  load_first cwd files = Ok d → d ≠ [].
Proof.
  induction files as [|file files IH]; simpl.
  - by intros [= <-].
  - destruct (cwd file) as [|e|data]; [done|done|].
    destruct (nonempty_dict data) as [d'|] eqn:Hd; [|done].
    intros [= <-]. by eapply nonempty_dict_Some.
Qed.

(** X7.  The registry loader never returns an empty mapping. *)
Theorem load_archetypes_nonempty (cwd : str → json_file) d :
  load_archetypes cwd = Ok d → d ≠ [].
Proof. apply load_first_nonempty. Qed.

(** X8.  The first candidate that holds a non-empty object is the registry;
    [archetypes.json] is not looked at when [archetypes_full.json] is
    one. *)
Theorem load_archetypes_priority (cwd : str → json_file) data d :
  nonempty_dict data = Some d →
  (cwd (py "archetypes_full.json") = Holds data → load_archetypes cwd = Ok d)
  ∧ (skipped (cwd (py "archetypes_full.json")) = true →
     cwd (py "archetypes.json") = Holds data → load_archetypes cwd = Ok d).
Proof.
  intros Hd. unfold load_archetypes, candidates. split.
  - intros Hfull. simpl. by rewrite Hfull, Hd.
  - intros Hskip Hsimple. simpl.
    destruct (cwd (py "archetypes_full.json")) as [|e|data'] eqn:Hfull;
      simpl in Hskip; [|done|].
    + by rewrite Hsimple, Hd.
    + apply bool_decide_eq_true_1 in Hskip. by rewrite Hskip, Hsimple, Hd.
Qed.

(** ** The routes, further *)




Lemma or_str_falsy o d : truthy o = false → or_str o d = d.
Proof. by destruct o as [[|c s]|]. Qed.

(** X17.  With [paid=true] (in any case) the page carries the narrative, and
    no code store is consulted: the by-code text when it is not empty,
    else the by-name text of the code's registry name when that is not
    empty, else the text ["Detailed report not found."]. *)
Theorem api_render_report_paid
    (BY_CODE BY_NAME ARCHETYPES : gmap str str)
    (render_template : str → request → context → str)
    (req : request) (w : world) :
  lower (args_get (py "paid") [] (args req)) = py "true" →
  let code := args_get (py "code") [] (args req) in
  let text :=
    or_str (if truthy (BY_CODE !! code) then BY_CODE !! code
            else ARCHETYPES !! code ≫= λ name, BY_NAME !! name)
           (py "Detailed report not found.") in
  api_render_report BY_CODE BY_NAME ARCHETYPES render_template req w
  = (Page (render_template (py "detailed_report.html") req
       (Context (or_str (ARCHETYPES !! code) (py "Unknown")) code (py "N/A")
          [(py "Detailed Report", text)]
          ([8220] ++ py "Depth rewards patience." ++ [8221]))), w)
  ∧ (∀ narrative, BY_CODE !! code = Some narrative → narrative ≠ [] →
       text = narrative).
Proof.
  intros Hpaid code text. split.
  - unfold api_render_report, report_context. fold code.
    rewrite (bool_decide_eq_true_2 _ Hpaid). subst text.
    destruct (truthy (BY_CODE !! code)) eqn:Ht; cbn [negb];
      destruct (ARCHETYPES !! code) as [[|c name]|];
      rewrite ?(or_str_falsy _ _ Ht); reflexivity.
  - intros narrative Hn Hne. subst text. rewrite Hn.
    by destruct narrative.
Qed.

(** X18.  For a code that has a non-empty by-code text or is in the registry,
    the paid page and the downloaded document carry the same text, unless
    there is none, where each has its own fallback sentence. *)
Theorem report_and_download_agree
    (BY_CODE BY_NAME ARCHETYPES : gmap str str) (req : request) (w : world) :
  lower (args_get (py "paid") [] (args req)) = py "true" →
  let code := args_get (py "code") [] (args req) in
  truthy (BY_CODE !! code) = true ∨ is_Some (ARCHETYPES !! code) →
  ∃ found : option str,
    sections (report_context BY_CODE BY_NAME ARCHETYPES req)
      = [(py "Detailed Report", or_str found (py "Detailed report not found."))]
    ∧ (download_report BY_CODE BY_NAME ARCHETYPES req w).1
      = SendFile
          [Heading (default (py "Unknown") (ARCHETYPES !! code)) 1;
           Paragraph (or_str found (py "Detailed text not found."))]
          true
          (replace_char 32 [95] (default (py "Unknown") (ARCHETYPES !! code))
           ++ py "_Detailed_Report.docx")
          docx_mimetype.
Proof.
  intros Hpaid code Hknown.
  exists (if truthy (BY_CODE !! code) then BY_CODE !! code
          else ARCHETYPES !! code ≫= λ name, BY_NAME !! name).
  unfold report_context, download_report, py_or. fold code.
  rewrite (bool_decide_eq_true_2 _ Hpaid).
  destruct (truthy (BY_CODE !! code)) eqn:Ht; cbn [negb].
  - destruct (ARCHETYPES !! code) as [[|c name]|]; split; reflexivity.
  - destruct Hknown as [|[name Hname]]; [done|]. rewrite Hname.
    destruct name; split; reflexivity.
Qed.

Lemma replace_char_no_old old new s :
  old ∉ new → old ∉ replace_char old new s.
Proof.
  intros Hnew. unfold replace_char. induction s as [|c s IH]; simpl.
  - apply not_elem_of_nil.
  - intros Hin. apply elem_of_app in Hin as [Hin|Hin]; [|done].
    destruct (c =? old) eqn:Hc; [done|].
    apply list_elem_of_singleton in Hin. subst. by rewrite N.eqb_refl in Hc.
Qed.

(** X19.  The name of the downloaded file has no space in it. *)
Theorem download_name_no_space
    (BY_CODE BY_NAME ARCHETYPES : gmap str str) (req : request) (w : world) :
  ∃ body name,
    (download_report BY_CODE BY_NAME ARCHETYPES req w).1
      = SendFile body true name docx_mimetype
    ∧ (32 ∉ name)
    ∧ (py ".docx" `suffix_of` name).
Proof.
  do 2 eexists. split; [reflexivity|]. split.
  - intros Hin. apply elem_of_app in Hin as [Hin|Hin].
    + revert Hin. apply replace_char_no_old. by intros ?%list_elem_of_singleton.
    + revert Hin. vm_compute. intros Hin.
      repeat (apply elem_of_cons in Hin as [Hin|Hin]; [discriminate|]).
      by apply elem_of_nil in Hin.
  - exists (replace_char 32 [95] (default (py "Unknown")
              (ARCHETYPES !! args_get (py "code") [] (args req)))
            ++ py "_Detailed_Report").
    by rewrite <- app_assoc.
Qed.

(** ** The diagnostic route *)

Lemma is_prefix_app x t : is_prefix x (x ++ t) = true.
Proof. induction x as [|c x IH]; simpl; [done|]. by rewrite N.eqb_refl. Qed.

Lemma is_prefix_app_l x h t : is_prefix x h = true → is_prefix x (h ++ t) = true.
Proof.
  revert h. induction x as [|c x IH]; intros h; simpl; [done|].
  destruct h as [|d h]; simpl; [done|].
  intros H. apply andb_prop in H as [-> H]. simpl. by apply IH.
Qed.

Lemma contains_app_l x h t : contains x h = true → contains x (h ++ t) = true.
Proof.
  induction h as [|d h IH]; simpl.
  - rewrite orb_false_r. intros H. destruct x; [|done]. by destruct t.
  - intros H. apply orb_prop in H as [H|H].
    + change (d :: h ++ t) with ((d :: h) ++ t).
      by rewrite (is_prefix_app_l _ _ _ H).
    + rewrite (IH H). apply orb_true_r.
Qed.

Lemma contains_app_r x h t : contains x t = true → contains x (h ++ t) = true.
Proof.
  intros H. induction h as [|d h IH]; simpl; [by destruct t|].
  rewrite IH. apply orb_true_r.
Qed.

Lemma contains_middle x a b : contains x (a ++ x ++ b) = true.
Proof.
  apply contains_app_r. destruct (x ++ b) eqn:Hx.
  - destruct x; [done|discriminate].
  - rewrite <- Hx. destruct x as [|c x]; [by rewrite Hx|].
    simpl. by rewrite N.eqb_refl, is_prefix_app.
Qed.

Lemma debug_fold_contains name_items x items : ∀ html,
  contains x html = true →
  contains x (foldl (λ html ct, html ++ debug_entry name_items ct.1 ct.2)
                html items) = true.
Proof.
  induction items as [|ct items IH]; intros html H; simpl; [done|].
  apply IH. by apply contains_app_l.
Qed.

(** X20.  [/debug/all-reports] shows the first 800 characters of every
    narrative to any caller: it takes nothing from the request and leaves
    the world as it was. *)
Theorem debug_all_reports_shows_all
    (BY_CODE : gmap str str) (code_items name_items : list (str * str))
    (req : request) (w : world) :
  code_items ≡ₚ map_to_list BY_CODE →
  (∀ code text, BY_CODE !! code = Some text →
     ∃ html, debug_all_reports code_items name_items req w = (Page html, w)
             ∧ contains (py "<pre>" ++ take 800 text ++ py "...</pre>") html
               = true)
  ∧ ∀ (req' : request) (w' : world),
      (debug_all_reports code_items name_items req' w').1
      = (debug_all_reports code_items name_items req w).1.
Proof.
  intros Hitems. split; [|done].
  intros code text Hl. eexists. split; [reflexivity|].
  assert (Hin : (code, text) ∈ code_items).
  { rewrite Hitems. by apply elem_of_map_to_list. }
  apply list_elem_of_split in Hin as (before & after & ->).
  rewrite foldl_app. simpl. apply debug_fold_contains.
  apply contains_app_r. unfold debug_entry.
  set (pre := py "<h2>" ++ first_name_with text name_items ++ py " (" ++ code ++ py ")</h2>").
  replace (py "<h2>" ++ first_name_with text name_items ++ py " (" ++ code
           ++ py ")</h2><pre>" ++ take 800 text ++ py "...</pre><hr>")
    with (pre ++ (py "<pre>" ++ take 800 text ++ py "...</pre>") ++ py "<hr>").
  - apply contains_middle.
  - unfold pre. rewrite <- !app_assoc. reflexivity.
Qed.



(** ** The further properties at concrete inputs *)

Lemma extract_without_header_witness :
  (∀ r, r ∈ sample_preamble → search header_re (strip r) = None)
  ∧ extract sample_preamble = Some (∅, ∅).
Proof.
  assert (H : ∀ r, r ∈ sample_preamble → search header_re (strip r) = None).
  { intros r Hr. unfold sample_preamble in Hr.
    apply elem_of_cons in Hr as [->|Hr]; [vm_compute; reflexivity|].
    apply list_elem_of_singleton in Hr as ->. vm_compute; reflexivity. }
  split; [exact H|]. exact (extract_without_header sample_preamble H).
Defined.

Lemma extract_unknown_document :
  extract unknown_document = Some (unknown_by_code, unknown_by_name).
Proof. vm_compute. reflexivity. Defined.

Lemma extract_well_formed_witness :
  extract unknown_document = Some (unknown_by_code, unknown_by_name)
  ∧ well_formed unknown_by_code ∧ well_formed unknown_by_name.
Proof.
  split; [exact extract_unknown_document|].
  exact (extract_well_formed unknown_document _ _ extract_unknown_document).
Defined.

Lemma unknown_document_ascii : ∀ r, r ∈ unknown_document → is_ascii r = true.
Proof.
  intros r Hr. unfold unknown_document in Hr.
  repeat (apply elem_of_cons in Hr as [->|Hr]; [vm_compute; reflexivity|]).
  by apply elem_of_nil in Hr.
Defined.

Lemma extract_trait_codes_witness :
  (∀ r, r ∈ unknown_document → is_ascii r = true)
  ∧ extract unknown_document = Some (unknown_by_code, unknown_by_name)
  ∧ unknown_by_code !! py "High-Low-Medium-High-Low"
    = Some (py "A narrative filed under the name Unknown.")
  ∧ py "High-Low-Medium-High-Low" ∈ trait_codes.
Proof.
  assert (H : unknown_by_code !! py "High-Low-Medium-High-Low"
              = Some (py "A narrative filed under the name Unknown."))
    by (vm_compute; reflexivity).
  split; [exact unknown_document_ascii|].
  split; [exact extract_unknown_document|]. split; [exact H|].
  exact (extract_trait_codes unknown_document _ _ unknown_document_ascii
           extract_unknown_document _ _ H).
Defined.

Lemma scenario_header_match :
  search header_re (strip scenario_header) = Some scenario_match.
Proof. vm_compute. reflexivity. Defined.

Lemma turn_on_header_witness :
  search header_re (strip scenario_header) = Some scenario_match
  ∧ (1 ≤ 2 ≤ 3)%nat
  ∧ (∀ j', (1 ≤ j' < 2)%nat → label_at sample_document (2 + j') = None)
  ∧ label_at sample_document (2 + 2) = Some (py "Starlight Wanderer")
  ∧ py "Starlight Wanderer" ≠ []
  ∧ turn sample_document 2 (strip scenario_header) scenario_header
      (Scanner ∅ ∅ None None [])
    = (5%nat, Scanner ∅ ∅ (Some (py "High-Low-Medium-High-Low"))
                (Some (py "Starlight Wanderer")) []).
Proof.
  assert (Hj : (1 ≤ 2 ≤ 3)%nat) by lia.
  assert (Hnone : ∀ j', (1 ≤ j' < 2)%nat → label_at sample_document (2 + j') = None).
  { intros j' Hj'. assert (j' = 1%nat) as -> by lia. vm_compute. reflexivity. }
  assert (Hlabel : label_at sample_document (2 + 2) = Some (py "Starlight Wanderer"))
    by (vm_compute; reflexivity).
  assert (Hrhs :
    (S (2 + 2), Scanner (by_code (flush (Scanner ∅ ∅ None None [])))
                  (by_name (flush (Scanner ∅ ∅ None None [])))
                  (Some (code_of_groups (groups 5 scenario_match)))
                  (Some (py "Starlight Wanderer")) [])
    = (5%nat, Scanner ∅ ∅ (Some (py "High-Low-Medium-High-Low"))
                (Some (py "Starlight Wanderer")) []))
    by (vm_compute; reflexivity).
  split; [exact scenario_header_match|]. split; [exact Hj|].
  split; [exact Hnone|]. split; [exact Hlabel|].
  destruct (proj1 (turn_on_header sample_document 2 (strip scenario_header)
                     scenario_header (Scanner ∅ ∅ None None []) scenario_match
                     scenario_header_match)
              2%nat (py "Starlight Wanderer") Hj Hnone Hlabel) as [Hne Hturn].
  split; [exact Hne|]. exact (eq_trans Hturn Hrhs).
Defined.

Lemma extract_ignores_preamble_witness :
  (∀ r, r ∈ sample_preamble → search header_re (strip r) = None)
  ∧ fst <$> extract (sample_preamble ++ unknown_document)
    = fst <$> extract unknown_document.
Proof.
  assert (H : ∀ r, r ∈ sample_preamble → search header_re (strip r) = None).
  { intros r Hr. unfold sample_preamble in Hr.
    apply elem_of_cons in Hr as [->|Hr]; [vm_compute; reflexivity|].
    apply list_elem_of_singleton in Hr as ->. vm_compute; reflexivity. }
  split; [exact H|].
  exact (extract_ignores_preamble sample_preamble unknown_document H).
Defined.

Lemma load_archetypes_nonempty_witness :
  load_archetypes empty_registry = Ok fallback_archetypes
  ∧ fallback_archetypes ≠ [].
Proof.
  assert (H : load_archetypes empty_registry = Ok fallback_archetypes)
    by reflexivity.
  split; [exact H|].
  exact (load_archetypes_nonempty empty_registry fallback_archetypes H).
Defined.

Lemma load_archetypes_priority_witness :
  nonempty_dict (JObject full_registry) = Some full_registry
  ∧ two_registries (py "archetypes_full.json") = Holds (JObject full_registry)
  ∧ load_archetypes two_registries = Ok full_registry.
Proof.
  assert (H1 : nonempty_dict (JObject full_registry) = Some full_registry)
    by reflexivity.
  assert (H2 : two_registries (py "archetypes_full.json")
               = Holds (JObject full_registry)) by reflexivity.
  split; [exact H1|]. split; [exact H2|].
  exact (proj1 (load_archetypes_priority two_registries
                  (JObject full_registry) full_registry H1) H2).
Defined.

Lemma new_code_injective_witness :
  new_code fresh_draw = new_code (x0a, x1b, x2c, x3d)%byte
  ∧ fresh_draw = (x0a, x1b, x2c, x3d)%byte.
Proof.
  split; [reflexivity|].
  exact (new_code_injective fresh_draw (x0a, x1b, x2c, x3d)%byte eq_refl).
Defined.

Lemma codes_never_deleted_witness :
  is_Some (load_free_codes spent_world !! spent_code)
  ∧ is_Some (load_free_codes (calls spent_calls spent_world).2 !! spent_code).
Proof.
  assert (H : is_Some (load_free_codes spent_world !! spent_code))
    by (vm_compute; eauto).
  split; [exact H|].
  exact (proj1 (codes_never_deleted spent_calls spent_world spent_code) H).
Defined.




Lemma api_render_report_paid_witness :
  lower (args_get (py "paid") [] (args paid_request)) = py "true"
  ∧ unknown_by_code !! args_get (py "code") [] (args paid_request)
    = Some (py "A narrative filed under the name Unknown.")
  ∧ or_str
      (if truthy (unknown_by_code !! args_get (py "code") [] (args paid_request))
       then unknown_by_code !! args_get (py "code") [] (args paid_request)
       else fallback_registry !! args_get (py "code") [] (args paid_request)
            ≫= λ name, unknown_by_name !! name)
      (py "Detailed report not found.")
    = py "A narrative filed under the name Unknown.".
Proof.
  assert (H1 : lower (args_get (py "paid") [] (args paid_request)) = py "true")
    by (vm_compute; reflexivity).
  assert (H2 : unknown_by_code !! args_get (py "code") [] (args paid_request)
               = Some (py "A narrative filed under the name Unknown."))
    by (vm_compute; reflexivity).
  assert (H3 : py "A narrative filed under the name Unknown." ≠ [])
    by (vm_compute; discriminate).
  split; [exact H1|]. split; [exact H2|].
  exact (proj2 (api_render_report_paid unknown_by_code unknown_by_name
                  fallback_registry sample_template paid_request
                  (World None []) H1) _ H2 H3).
Defined.

Lemma report_and_download_agree_witness :
  lower (args_get (py "paid") [] (args paid_request)) = py "true"
  ∧ (truthy (unknown_by_code !! args_get (py "code") [] (args paid_request)) = true
     ∨ is_Some (fallback_registry !! args_get (py "code") [] (args paid_request)))
  ∧ ∃ found : option str,
      sections (report_context unknown_by_code unknown_by_name fallback_registry
                  paid_request)
        = [(py "Detailed Report", or_str found (py "Detailed report not found."))]
      ∧ (download_report unknown_by_code unknown_by_name fallback_registry
           paid_request (World None [])).1
        = SendFile
            [Heading (default (py "Unknown")
                        (fallback_registry
                           !! args_get (py "code") [] (args paid_request))) 1;
             Paragraph (or_str found (py "Detailed text not found."))]
            true
            (replace_char 32 [95]
               (default (py "Unknown")
                  (fallback_registry
                     !! args_get (py "code") [] (args paid_request)))
             ++ py "_Detailed_Report.docx")
            docx_mimetype.
Proof.
  assert (H1 : lower (args_get (py "paid") [] (args paid_request)) = py "true")
    by (vm_compute; reflexivity).
  assert (H2 : truthy (unknown_by_code
                         !! args_get (py "code") [] (args paid_request)) = true
               ∨ is_Some (fallback_registry
                            !! args_get (py "code") [] (args paid_request)))
    by (left; vm_compute; reflexivity).
  split; [exact H1|]. split; [exact H2|].
  exact (report_and_download_agree unknown_by_code unknown_by_name
           fallback_registry paid_request (World None []) H1 H2).
Defined.

Lemma debug_all_reports_shows_all_witness :
  [(py "High-Low-Medium-High-Low", py "A narrative filed under the name Unknown.")]
    ≡ₚ map_to_list unknown_by_code
  ∧ unknown_by_code !! py "High-Low-Medium-High-Low"
    = Some (py "A narrative filed under the name Unknown.")
  ∧ ∃ html,
      debug_all_reports
        [(py "High-Low-Medium-High-Low",
          py "A narrative filed under the name Unknown.")]
        [(py "Unknown", py "A narrative filed under the name Unknown.")]
        (Request []) (World None [])
      = (Page html, World None [])
      ∧ contains (py "<pre>"
                  ++ take 800 (py "A narrative filed under the name Unknown.")
                  ++ py "...</pre>") html = true.
Proof.
  assert (H1 : [(py "High-Low-Medium-High-Low",
                 py "A narrative filed under the name Unknown.")]
               ≡ₚ map_to_list unknown_by_code).
  { unfold unknown_by_code. by rewrite map_to_list_singleton. }
  assert (H2 : unknown_by_code !! py "High-Low-Medium-High-Low"
               = Some (py "A narrative filed under the name Unknown."))
    by (vm_compute; reflexivity).
  split; [exact H1|]. split; [exact H2|].
  exact (proj1 (debug_all_reports_shows_all unknown_by_code _
                  [(py "Unknown", py "A narrative filed under the name Unknown.")]
                  (Request []) (World None []) H1) _ _ H2).
Defined.


Lemma generate_free_code_frame_witness :
  py "FFFFFFFF" ≠ new_code fresh_draw
  ∧ load_free_codes (generate_free_code fresh_draw unspent_world).2 !! py "FFFFFFFF"
    = load_free_codes unspent_world !! py "FFFFFFFF".
Proof.
  assert (H : py "FFFFFFFF" ≠ new_code fresh_draw) by (vm_compute; discriminate).
  split; [exact H|].
  exact (proj1 (proj2 (proj2 (generate_free_code_frame fresh_draw unspent_world)))
           (py "FFFFFFFF") H).
Defined.

(** * The scenario of the specification *)

(** ** Trimming, character by character *)

Lemma lstrip_spaces lead s :
  forallb isspace lead = true → lstrip (lead ++ s) = lstrip s.
Proof.
  induction lead as [|c lead IH]; simpl; [done|].
  intros H. apply andb_prop in H as [-> H]. by apply IH.
Qed.

Lemma lstrip_clean c s : isspace c = false → lstrip (c :: s) = c :: s.
Proof. intros Hc. simpl. by rewrite Hc. Qed.

(** Stripping takes the white space off both ends and nothing else. *)
Lemma strip_trim lead trail s c1 c2 :
  forallb isspace lead = true → forallb isspace trail = true →
  head s = Some c1 → isspace c1 = false →
  last s = Some c2 → isspace c2 = false →
  strip (lead ++ s ++ trail) = s.
Proof.
  intros Hlead Htrail Hh Hc1 Hl Hc2.
  destruct s as [|c s]; [done|]. injection Hh as ->.
  unfold strip, rstrip.
  rewrite (lstrip_spaces _ _ Hlead).
  change ((c1 :: s) ++ trail) with (c1 :: (s ++ trail)).
  rewrite (lstrip_clean _ _ Hc1).
  change (c1 :: (s ++ trail)) with ((c1 :: s) ++ trail).
  rewrite reverse_app, lstrip_spaces.
  - apply last_Some in Hl as [s' Hs']. rewrite Hs', reverse_snoc.
    rewrite (lstrip_clean _ _ Hc2). by rewrite <- reverse_snoc, reverse_involutive.
  - rewrite forallb_forall in *. intros x Hx. apply Htrail.
    apply list_elem_of_In. apply list_elem_of_In in Hx.
    by rewrite elem_of_reverse in Hx.
Qed.

(** ** Fuel *)

(** Past what the paragraphs left need, more fuel changes nothing. *)
Lemma scan_fuel raw f1 : ∀ f2 i st,
  (length raw - i ≤ f1)%nat → (length raw - i ≤ f2)%nat →
  scan raw f1 i st = scan raw f2 i st.
Proof.
  induction f1 as [|f1 IH]; intros f2 i st H1 H2.
  - assert (raw !! i = None) as Hr by (apply lookup_ge_None_2; lia).
    by rewrite !(scan_end _ _ _ _ Hr).
  - destruct (raw !! i) as [r|] eqn:Hr;
      [|by rewrite !(scan_end _ _ _ _ Hr)].
    assert (i < length raw)%nat by (by eapply lookup_lt_Some).
    destruct f2 as [|f2]; [lia|].
    rewrite !(scan_turn _ _ _ _ _ Hr).
    pose proof (turn_advances raw i (strip r) r st).
    apply IH; lia.
Qed.

(** The label found by the lookahead is a paragraph that matches
    [archetype_re], and its name is what the match captured. *)
Lemma lookahead_label raw js i name i' :
  lookahead raw js i = Some (name, i') →
  ∃ l m, lines raw !! i' = Some l ∧ match_ archetype_re (strip l) = Some m
         ∧ name = strip (group 1 m).
Proof.
  induction js as [|j js IH]; simpl; [done|].
  destruct (lines raw !! (i + j)%nat) as [l|] eqn:Hl; [|done].
  destruct (match_ archetype_re (strip l)) as [m|] eqn:Hm; [|done].
  intros [= <- <-]. eauto.
Qed.

(** The scan reaches index [k] when no turn before [k] moves past it. *)
Lemma scan_reaches raw k (P : scanner → Prop) :
  (k ≤ length raw)%nat →
  (∀ i r st, (i < k)%nat → raw !! i = Some r → P st →
     ((turn raw i (strip r) r st).1 ≤ k)%nat
     ∧ P (turn raw i (strip r) r st).2) →
  ∀ d i st, (k - i ≤ d)%nat → (i ≤ k)%nat → P st →
    ∃ st', P st'
      ∧ scan raw (length raw - i) i st = scan raw (length raw - k) k st'.
Proof.
  intros Hk Hstep. induction d as [|d IH]; intros i st Hd Hi HP.
  - replace i with k by lia. eauto.
  - destruct (decide (i = k)) as [->|Hne]; [eauto|].
    destruct (lookup_lt_is_Some_2 raw i) as [r Hr]; [lia|].
    destruct (Hstep i r st ltac:(lia) Hr HP) as [Hle HP'].
    pose proof (turn_advances raw i (strip r) r st) as Hadv.
    destruct (IH (turn raw i (strip r) r st).1 (turn raw i (strip r) r st).2)
      as (st' & HP'' & Hscan); [lia|lia|done|].
    exists st'. split; [done|]. rewrite <- Hscan.
    replace (length raw - i)%nat with (S (length raw - i - 1)) by lia.
    rewrite (scan_turn _ _ _ _ _ Hr). apply scan_fuel; lia.
Qed.

(** What every turn from index [i0] on keeps, the scan from there keeps. *)
Lemma scan_invariant_from (P : scanner → Prop) raw i0 :
  (∀ i r st, (i0 ≤ i)%nat → raw !! i = Some r → P st →
     P (turn raw i (strip r) r st).2) →
  ∀ fuel i st st', (i0 ≤ i)%nat → P st → scan raw fuel i st = Some st' → P st'.
Proof.
  intros Hturn. induction fuel as [|fuel IH]; intros i st st' Hi HP Hscan.
  - destruct (raw !! i) as [r|] eqn:Hr.
    + cbn [scan] in Hscan. by rewrite lines_lookup, Hr in Hscan.
    + rewrite (scan_end _ _ _ _ Hr) in Hscan. by injection Hscan as <-.
  - destruct (raw !! i) as [r|] eqn:Hr.
    + rewrite (scan_turn _ _ _ _ _ Hr) in Hscan.
      pose proof (turn_advances raw i (strip r) r st).
      eapply IH; [|by eapply Hturn|exact Hscan]. lia.
    + rewrite (scan_end _ _ _ _ Hr) in Hscan. by injection Hscan as <-.
Qed.

(** ** The scenario inside a longer document *)

Lemma scenario_header_not_label :
  match_ archetype_re (strip scenario_header) = None.
Proof. vm_compute. reflexivity. Qed.

Lemma unknown_name_other i :
  py "Unknown_" ++ str_of_nat i ≠ py "Starlight Wanderer".
Proof. intros H. apply (f_equal head) in H. vm_compute in H. discriminate. Qed.

(** [flush()] with a code, a name and paragraphs in the buffer. *)
Lemma flush_section bc bn code name buf :
  code ≠ [] → name ≠ [] → buf ≠ [] →
  flush (Scanner bc bn (Some code) (Some name) buf)
  = Scanner (<[code := strip (join [10] buf)]> bc)
            (<[name := strip (join [10] buf)]> bn) (Some code) (Some name) [].
Proof.
  intros Hc Hn Hb. unfold flush. cbn [current_code current_name buffer by_code by_name].
  destruct code as [|c code]; [done|]. destruct name as [|d name]; [done|].
  cbn [truthy default andb]. by rewrite (bool_decide_eq_true_2 _ Hb).
Qed.

Lemma flush_settled code name text st :
  settled code name text st → settled code name text (flush st).
Proof.
  intros (Hc & Hn & Hcc & Hcn). unfold flush.
  destruct (truthy (current_code st) && bool_decide (buffer st ≠ [])) eqn:Hcond;
    [|done].
  apply andb_prop in Hcond as [Ht _].
  split; [|split; [|done]]; cbn [by_code by_name].
  - rewrite lookup_insert_ne; [done|].
    destruct (current_code st) as [c|]; [|done]. simpl. congruence.
  - destruct (truthy (current_name st)) eqn:Htn; [|done].
    rewrite lookup_insert_ne; [done|].
    destruct (current_name st) as [c|]; [|done]. simpl. congruence.
Qed.

Section Scenario.

Variables (before after : list str) (X B1 B2 : str).

Local Abbreviation raw := (scenario_document before X B1 B2 after).
Local Abbreviation k := (length before).

Hypothesis Hbefore : ∀ r, last before = Some r → search header_re (strip r) = None.
Hypothesis HX : match_ archetype_re (strip X) = None.
Hypothesis HB1 : search header_re (strip B1) = None.
Hypothesis HB2 : search header_re (strip B2) = None.

Lemma scenario_lookup j :
  raw !! (k + j)%nat
  = ([scenario_header; X; scenario_label; B1; B2] ++ after) !! j.
Proof.
  unfold scenario_document. rewrite lookup_app_r by lia. f_equal. lia.
Qed.

Lemma scenario_length : length raw = (k + 5 + length after)%nat.
Proof. unfold scenario_document. rewrite !length_app. simpl. lia. Qed.

(** No turn before the header line moves past it. *)
Lemma scenario_not_skipped i r st :
  (i < k)%nat → raw !! i = Some r →
  ((turn raw i (strip r) r st).1 ≤ k)%nat.
Proof.
  intros Hi Hr. unfold turn.
  destruct (search header_re (strip r)) as [m|] eqn:Hs; [|simpl; lia].
  destruct (lookahead raw [1; 2; 3]%nat i) as [[name i']|] eqn:Hla;
    cbn [fst]; [|lia].
  destruct (lookahead_window _ _ _ _ _ Hla) as (j & Hj & ->).
  destruct (lookahead_label _ _ _ _ _ Hla) as (l & ml & Hl & Hml & _).
  rewrite lines_lookup in Hl.
  destruct (decide (i + j < k)%nat) as [|Hge]; [lia|]. exfalso.
  assert (Hj3 : (1 ≤ j ≤ 3)%nat).
  { repeat (apply elem_of_cons in Hj as [->|Hj]; [lia|]).
    by apply elem_of_nil in Hj. }
  destruct (decide (i + j = k)%nat) as [E0|N0].
  { rewrite E0 in Hl. replace k with (k + 0)%nat in Hl by lia.
    rewrite scenario_lookup in Hl. injection Hl as <-.
    rewrite strip_idemp, scenario_header_not_label in Hml. done. }
  destruct (decide (i + j = k + 1)%nat) as [E1|N1].
  { rewrite E1, scenario_lookup in Hl. injection Hl as <-.
    rewrite strip_idemp, HX in Hml. done. }
  assert (i = pred k) as -> by lia.
  assert (last before = Some r) as Hlast.
  { rewrite last_lookup. unfold scenario_document in Hr.
    rewrite lookup_app_l in Hr; [done|]. lia. }
  rewrite (Hbefore _ Hlast) in Hs. done.
Qed.

(** The scan comes to the header line, with nothing on record yet when
    no header stands before it. *)
Lemma scenario_reached :
  ∃ st, ((∀ r, r ∈ before → search header_re (strip r) = None) →
           st = Scanner ∅ ∅ None None [])
      ∧ scan raw (length raw) 0 (Scanner ∅ ∅ None None [])
        = scan raw (length raw - k) k st.
Proof.
  destruct (scan_reaches raw k
    (λ st, (∀ r, r ∈ before → search header_re (strip r) = None) →
           st = Scanner ∅ ∅ None None [])) with (d := k) (i := 0%nat)
    (st := Scanner ∅ ∅ None None []) as (st & HP & Hscan).
  - rewrite scenario_length. lia.
  - intros i r st Hi Hr HP. split; [by apply scenario_not_skipped|].
    intros Hnone. rewrite (HP Hnone).
    rewrite turn_body; [done|]. apply Hnone.
    unfold scenario_document in Hr. rewrite lookup_app_l in Hr by done.
    by eapply list_elem_of_lookup_2.
  - lia.
  - lia.
  - done.
  - exists st. split; [done|]. by rewrite Nat.sub_0_r in Hscan.
Qed.

(** From the header line the scan takes the code, the name of the label
    two paragraphs on, and the two paragraphs of the body. *)
Lemma scenario_scanned st :
  scan raw (length raw - k) k st
  = scan raw (length after) (k + 5)
      (Scanner (by_code (flush st)) (by_name (flush st))
         (Some (py "High-Low-Medium-High-Low"))
         (Some (py "Starlight Wanderer")) [B1; B2]).
Proof.
  rewrite scenario_length.
  replace (k + 5 + length after - k)%nat with (S (S (S (2 + length after)))) by lia.
  destruct (search header_re (strip scenario_header)) as [m|] eqn:Hm;
    [|by pose proof scenario_header_groups as Hg; rewrite Hm in Hg].
  assert (Hla : lookahead raw [1; 2; 3]%nat k
                = Some (py "Starlight Wanderer", (k + 2)%nat)).
  { cbn [lookahead]. rewrite !lines_lookup, !scenario_lookup.
    cbn [app lookup list_lookup fmap option_fmap option_map].
    rewrite !strip_idemp, HX.
    pose proof scenario_label_name as Hn.
    destruct (match_ archetype_re (strip scenario_label)) as [n|]; [|done].
    cbn [fmap option_fmap option_map] in Hn.
    assert (strip (group 1 n) = py "Starlight Wanderer") as -> by congruence.
    do 2 f_equal. }
  assert (Hk0 : raw !! k = Some scenario_header).
  { replace k with (k + 0)%nat at 1 by lia. by rewrite scenario_lookup. }
  rewrite (scan_turn _ _ _ _ _ Hk0).
  rewrite (turn_header _ _ _ _ _ _ _ _ Hm Hla) by done.
  rewrite (scenario_header_code _ Hm). cbn [fst snd].
  assert (Hk3 : raw !! S (k + 2) = Some B1).
  { replace (S (k + 2)) with (k + 3)%nat by lia. by rewrite scenario_lookup. }
  rewrite (scan_turn _ _ _ _ _ Hk3), (turn_body _ _ _ _ _ HB1).
  cbn [fst snd current_code truthy py by_code by_name current_name buffer app].
  assert (Hk4 : raw !! S (S (k + 2)) = Some B2).
  { replace (S (S (k + 2))) with (k + 4)%nat by lia. by rewrite scenario_lookup. }
  rewrite (scan_turn _ _ _ _ _ Hk4), (turn_body _ _ _ _ _ HB2).
  cbn [fst snd current_code truthy py by_code by_name current_name buffer app].
  replace (S (S (S (k + 2)))) with (k + 5)%nat by lia.
  apply scan_fuel; rewrite scenario_length; lia.
Qed.

Hypothesis Hafter : ∀ r, head after = Some r → is_Some (search header_re (strip r)).
Hypothesis Hcodes : ∀ r m, r ∈ after → search header_re (strip r) = Some m →
  code_of_groups (groups 5 m) ≠ py "High-Low-Medium-High-Low".
Hypothesis Hnames : ∀ r m, r ∈ after → match_ archetype_re (strip r) = Some m →
  strip (group 1 m) ≠ py "Starlight Wanderer".

Lemma scenario_after i r : (k + 5 ≤ i)%nat → raw !! i = Some r → r ∈ after.
Proof.
  intros Hi Hr. unfold scenario_document in Hr.
  rewrite lookup_app_r in Hr by lia.
  rewrite (lookup_app_r [scenario_header; X; scenario_label; B1; B2]) in Hr
    by (simpl; lia).
  by eapply list_elem_of_lookup_2.
Qed.

(** A turn at a later paragraph leaves the record of the section alone. *)
Lemma scenario_kept text i r st :
  (k + 5 ≤ i)%nat → raw !! i = Some r →
  by_code (flush st) !! py "High-Low-Medium-High-Low" = Some text →
  by_name (flush st) !! py "Starlight Wanderer" = Some text →
  (is_Some (search header_re (strip r))
   ∨ settled (py "High-Low-Medium-High-Low") (py "Starlight Wanderer") text st) →
  settled (py "High-Low-Medium-High-Low") (py "Starlight Wanderer") text
    (turn raw i (strip r) r st).2.
Proof.
  intros Hi Hr Hc Hn Hcase.
  destruct (search header_re (strip r)) as [m|] eqn:Hs.
  - pose proof (Hcodes r m (scenario_after _ _ Hi Hr) Hs) as Hcode.
    destruct (lookahead raw [1; 2; 3]%nat i) as [[name i']|] eqn:Hla.
    + rewrite (turn_header _ _ _ _ _ _ _ _ Hs Hla)
        by (by eapply lookahead_name_nonempty).
      unfold settled. cbn [snd by_code by_name current_code current_name].
      split; [done|]. split; [done|]. split; [congruence|].
      destruct (lookahead_label _ _ _ _ _ Hla) as (l & ml & Hl & Hml & ->).
      pose proof (lookahead_index _ _ _ _ _ Hla) as Hle.
      rewrite lines_lookup in Hl.
      destruct (raw !! i') as [r'|] eqn:Hr'; [|done].
      injection Hl as <-. rewrite strip_idemp in Hml.
      pose proof (Hnames r' ml (scenario_after i' r' ltac:(lia) Hr') Hml).
      congruence.
    + rewrite (turn_header_unnamed _ _ _ _ _ _ Hs Hla).
      unfold settled. cbn [snd by_code by_name current_code current_name].
      split; [done|]. split; [done|]. split; [congruence|].
      intros H. apply (unknown_name_other i). congruence.
  - destruct Hcase as [[? ?]|(Hc' & Hn' & Hcc & Hcn)]; [done|].
    rewrite (turn_body _ _ _ _ _ Hs). cbn [snd].
    by destruct (truthy (current_code st)).
Qed.

Lemma scenario_recorded text st st' :
  strip (join [10] [B1; B2]) = text →
  scan raw (length after) (k + 5)
    (Scanner (by_code st) (by_name st)
       (Some (py "High-Low-Medium-High-Low"))
       (Some (py "Starlight Wanderer")) [B1; B2]) = Some st' →
  by_code (flush st') !! py "High-Low-Medium-High-Low" = Some text
  ∧ by_name (flush st') !! py "Starlight Wanderer" = Some text
  ∧ (after = [] →
     by_code (flush st') = <[py "High-Low-Medium-High-Low" := text]> (by_code st)
     ∧ by_name (flush st') = <[py "Starlight Wanderer" := text]> (by_name st)).
Proof.
  intros Htext Hscan.
  set (s5 := Scanner (by_code st) (by_name st)
       (Some (py "High-Low-Medium-High-Low"))
       (Some (py "Starlight Wanderer")) [B1; B2]) in *.
  assert (Hf : flush s5
    = Scanner (<[py "High-Low-Medium-High-Low" := text]> (by_code st))
              (<[py "Starlight Wanderer" := text]> (by_name st))
              (Some (py "High-Low-Medium-High-Low"))
              (Some (py "Starlight Wanderer")) []).
  { unfold s5. rewrite flush_section by done. by rewrite Htext. }
  assert (Hhead : raw !! (k + 5)%nat = head after).
  { rewrite scenario_lookup, head_lookup. done. }
  destruct (head after) as [h|] eqn:Hh.
  - rewrite (scan_fuel raw _ (S (length after))) in Hscan
      by (rewrite scenario_length; lia).
    rewrite (scan_turn _ _ _ _ _ Hhead) in Hscan.
    assert (Hs6 : settled (py "High-Low-Medium-High-Low")
              (py "Starlight Wanderer") text (turn raw (k + 5) (strip h) h s5).2).
    { apply scenario_kept; [lia|done|..].
      - rewrite Hf. cbn [by_code]. by rewrite lookup_insert_eq.
      - rewrite Hf. cbn [by_name]. by rewrite lookup_insert_eq.
      - left. by apply Hafter. }
    pose proof (turn_advances raw (k + 5) (strip h) h s5) as Hadv.
    assert (Hst' : settled (py "High-Low-Medium-High-Low")
              (py "Starlight Wanderer") text st').
    { eapply (scan_invariant_from _ raw (k + 5));
        [|apply Nat.lt_le_incl, Hadv|exact Hs6|exact Hscan].
      intros i r s Hi Hr Hs.
      pose proof (flush_settled _ _ _ _ Hs) as (Hc & Hn & _).
      apply scenario_kept; [done|done|done|done|by right]. }
    apply flush_settled in Hst' as (Hc & Hn & _).
    split; [done|]. split; [done|]. intros E. by rewrite E in Hh.
  - rewrite (scan_end _ _ _ _ Hhead) in Hscan. injection Hscan as <-.
    rewrite Hf. cbn [by_code by_name]. by rewrite !lookup_insert_eq.
Qed.

End Scenario.

Lemma join_two a b : join [10] [a; b] = a ++ [10] ++ b.
Proof. done. Qed.

(** C4, as stated, fails: the document holds the header line, the label
    two paragraphs on and two paragraphs of body text, and then a second
    section under the same header line; the later text is the one on record
    under ["High-Low-Medium-High-Low"]. *)
Lemma starlight_wanderer_overwritten :
  load_detailed_archetypes_docx (disk_with document_with_later_code)
    (py "morrowland 243.docx")
  = Some (Ok ({[py "High-Low-Medium-High-Low" := py "Another text."]},
              {[py "Starlight Wanderer" :=
                  py "You drift between worlds." ++ [10] ++ py "You rarely settle.";
                py "Moon Walker" := py "Another text."]})).
Proof. compute_done. Qed.

(** The other side conditions are needed as well.  With a label between
    the header line and ["Archetype: Starlight Wanderer"] the section takes
    the first label's name and the scenario's label line becomes body text;
    with a header line right before the scenario's, that line's lookahead
    finds the label and the body is filed under its code. *)
Lemma scenario_side_conditions :
  load_detailed_archetypes_docx (disk_with document_with_two_labels)
    (py "morrowland 243.docx")
  = Some (Ok ({[py "High-Low-Medium-High-Low" :=
                  py "Archetype: Starlight Wanderer" ++ [10]
                  ++ py "You drift between worlds." ++ [10]
                  ++ py "You rarely settle."]},
              {[py "Moon Walker" :=
                  py "Archetype: Starlight Wanderer" ++ [10]
                  ++ py "You drift between worlds." ++ [10]
                  ++ py "You rarely settle."]}))
  ∧ load_detailed_archetypes_docx (disk_with document_with_two_headers)
      (py "morrowland 243.docx")
    = Some (Ok ({[py "Low-Low-Low-Low-Low" :=
                    py "You drift between worlds." ++ [10]
                    ++ py "You rarely settle."]},
                {[py "Starlight Wanderer" :=
                    py "You drift between worlds." ++ [10]
                    ++ py "You rarely settle."]})).
Proof. split; compute_done. Qed.

(** C4, amended.  Let the document hold, anywhere, the header line of the
    scenario, a paragraph that is not an archetype label, the line
    ["Archetype: Starlight Wanderer"] and two paragraphs of body text
    (neither a header line; [b1] and [b2] with any white space [lead] before
    the first and [trail] after the second).  Provided the paragraph before
    the header line is not itself a header line, the body is followed by the
    end of the document or by a header line, and no later header line gives
    the same code and no later label the same name, the scanner returns and
    maps ["High-Low-Medium-High-Low"] to [b1], a newline and [b2], and
    ["Starlight Wanderer"] to that same text.  When no header line stands
    before and nothing comes after, these are the only two entries. *)
Theorem starlight_wanderer_scenario
    (disk : str → docx_file) (file_path : str)
    (before after : list str) (X lead b1 b2 trail : str) (c1 c2 : N) :
  disk file_path
    = Docx (before ++ [scenario_header; X; scenario_label;
                       lead ++ b1; b2 ++ trail] ++ after) →
  (∀ r, last before = Some r → search header_re (strip r) = None) →
  match_ archetype_re (strip X) = None →
  forallb isspace lead = true → head b1 = Some c1 → isspace c1 = false →
  forallb isspace trail = true → last b2 = Some c2 → isspace c2 = false →
  search header_re (strip (lead ++ b1)) = None →
  search header_re (strip (b2 ++ trail)) = None →
  (∀ r, head after = Some r → is_Some (search header_re (strip r))) →
  (∀ r m, r ∈ after → search header_re (strip r) = Some m →
     code_of_groups (groups 5 m) ≠ py "High-Low-Medium-High-Low") →
  (∀ r m, r ∈ after → match_ archetype_re (strip r) = Some m →
     strip (group 1 m) ≠ py "Starlight Wanderer") →
  ∃ bc bn,
    load_detailed_archetypes_docx disk file_path = Some (Ok (bc, bn))
    ∧ bc !! py "High-Low-Medium-High-Low" = Some (b1 ++ [10] ++ b2)
    ∧ bn !! py "Starlight Wanderer" = Some (b1 ++ [10] ++ b2)
    ∧ ((∀ r, r ∈ before → search header_re (strip r) = None) → after = [] →
       bc = {[py "High-Low-Medium-High-Low" := b1 ++ [10] ++ b2]}
       ∧ bn = {[py "Starlight Wanderer" := b1 ++ [10] ++ b2]}).
Proof.
  intros Hdisk Hbefore HX Hlead Hc1 Hs1 Htrail Hc2 Hs2 HB1 HB2 Hafter Hcodes Hnames.
  unfold load_detailed_archetypes_docx. rewrite Hdisk.
  cbn [path_exists negb]. clear Hdisk.
  change (before ++ [scenario_header; X; scenario_label;
                     lead ++ b1; b2 ++ trail] ++ after)
    with (scenario_document before X (lead ++ b1) (b2 ++ trail) after).
  set (raw := scenario_document before X (lead ++ b1) (b2 ++ trail) after).
  assert (Htext : strip (join [10] [lead ++ b1; b2 ++ trail])
                  = b1 ++ [10] ++ b2).
  { rewrite join_two.
    replace ((lead ++ b1) ++ [10] ++ b2 ++ trail)
      with (lead ++ (b1 ++ [10] ++ b2) ++ trail) by (by rewrite <- !app_assoc).
    apply (strip_trim _ _ _ c1 c2); [done|done| |done| |done].
    - destruct b1; [done|]. done.
    - rewrite !last_app. by rewrite Hc2. }
  destruct (scenario_reached before after X (lead ++ b1) (b2 ++ trail) Hbefore HX)
    as (st & Hinit & Hreach).
  rewrite (scenario_scanned before after X _ _ HX HB1 HB2) in Hreach.
  fold raw in Hreach.
  destruct (scan_terminates raw (length raw) 0 (Scanner ∅ ∅ None None []))
    as [st' Hst']; [lia|].
  unfold extract. unfold lines at 1. rewrite length_fmap, Hst'.
  cbn [mbind option_bind fmap option_fmap option_map].
  rewrite Hst' in Hreach. symmetry in Hreach.
  destruct (scenario_recorded before after X _ _ Hafter Hcodes Hnames
              _ (flush st) st' Htext Hreach) as (Hc & Hn & Hexact).
  exists (by_code (flush st')), (by_name (flush st')).
  split; [done|]. split; [done|]. split; [done|].
  intros Hnone Hnil. destruct (Hexact Hnil) as [-> ->].
  rewrite (Hinit Hnone), flush_empty by done. cbn [by_code by_name].
  by rewrite !insert_empty.
Qed.

Lemma later_section_codes r m :
  r ∈ later_section → search header_re (strip r) = Some m →
  code_of_groups (groups 5 m) ≠ py "High-Low-Medium-High-Low".
Proof.
  unfold later_section. intros Hr Hs.
  repeat (apply elem_of_cons in Hr as [->|Hr];
          [vm_compute in Hs; try discriminate|]).
  - injection Hs as <-. vm_compute. discriminate.
  - by apply elem_of_nil in Hr.
Qed.

Lemma later_section_names r m :
  r ∈ later_section → match_ archetype_re (strip r) = Some m →
  strip (group 1 m) ≠ py "Starlight Wanderer".
Proof.
  unfold later_section. intros Hr Hs.
  repeat (apply elem_of_cons in Hr as [->|Hr];
          [vm_compute in Hs; try discriminate|]).
  - injection Hs as <-. vm_compute. discriminate.
  - by apply elem_of_nil in Hr.
Qed.

Lemma starlight_wanderer_scenario_witness :
  disk_with long_document (py "morrowland 243.docx")
    = Docx (earlier_section ++
            [scenario_header; []; scenario_label;
             py "  " ++ py "You drift between worlds. ";
             py "You rarely settle." ++ py " "] ++ later_section)
  ∧ (∀ r, last earlier_section = Some r → search header_re (strip r) = None)
  ∧ match_ archetype_re (strip []) = None
  ∧ forallb isspace (py "  ") = true
  ∧ head (py "You drift between worlds. ") = Some 89
  ∧ isspace 89 = false
  ∧ forallb isspace (py " ") = true
  ∧ last (py "You rarely settle.") = Some 46
  ∧ isspace 46 = false
  ∧ search header_re (strip (py "  " ++ py "You drift between worlds. ")) = None
  ∧ search header_re (strip (py "You rarely settle." ++ py " ")) = None
  ∧ (∀ r, head later_section = Some r → is_Some (search header_re (strip r)))
  ∧ (∀ r m, r ∈ later_section → search header_re (strip r) = Some m →
       code_of_groups (groups 5 m) ≠ py "High-Low-Medium-High-Low")
  ∧ (∀ r m, r ∈ later_section → match_ archetype_re (strip r) = Some m →
       strip (group 1 m) ≠ py "Starlight Wanderer")
  ∧ ∃ bc bn,
      load_detailed_archetypes_docx (disk_with long_document)
        (py "morrowland 243.docx") = Some (Ok (bc, bn))
      ∧ bc !! py "High-Low-Medium-High-Low"
        = Some (py "You drift between worlds. " ++ [10] ++ py "You rarely settle.")
      ∧ bn !! py "Starlight Wanderer"
        = Some (py "You drift between worlds. " ++ [10] ++ py "You rarely settle.")
      ∧ ((∀ r, r ∈ earlier_section → search header_re (strip r) = None) →
         later_section = [] →
         bc = {[py "High-Low-Medium-High-Low" :=
                  py "You drift between worlds. " ++ [10] ++ py "You rarely settle."]}
         ∧ bn = {[py "Starlight Wanderer" :=
                  py "You drift between worlds. " ++ [10] ++ py "You rarely settle."]}).
Proof.
  assert (Hdisk : disk_with long_document (py "morrowland 243.docx")
    = Docx (earlier_section ++
            [scenario_header; []; scenario_label;
             py "  " ++ py "You drift between worlds. ";
             py "You rarely settle." ++ py " "] ++ later_section))
    by reflexivity.
  assert (Hbefore : ∀ r, last earlier_section = Some r →
                         search header_re (strip r) = None).
  { intros r [= <-]. vm_compute. reflexivity. }
  assert (HX : match_ archetype_re (strip []) = None)
    by (vm_compute; reflexivity).
  assert (Hlead : forallb isspace (py "  ") = true) by (vm_compute; reflexivity).
  assert (Hc1 : head (py "You drift between worlds. ") = Some 89)
    by (vm_compute; reflexivity).
  assert (Hs1 : isspace 89 = false) by (vm_compute; reflexivity).
  assert (Htrail : forallb isspace (py " ") = true) by (vm_compute; reflexivity).
  assert (Hc2 : last (py "You rarely settle.") = Some 46)
    by (vm_compute; reflexivity).
  assert (Hs2 : isspace 46 = false) by (vm_compute; reflexivity).
  assert (HB1 : search header_re
                  (strip (py "  " ++ py "You drift between worlds. ")) = None)
    by (vm_compute; reflexivity).
  assert (HB2 : search header_re (strip (py "You rarely settle." ++ py " ")) = None)
    by (vm_compute; reflexivity).
  assert (Hafter : ∀ r, head later_section = Some r →
                        is_Some (search header_re (strip r))).
  { intros r [= <-]. vm_compute. eauto. }
  repeat (split; [assumption || exact later_section_codes
                  || exact later_section_names|]).
  exact (starlight_wanderer_scenario _ _ earlier_section later_section
           [] (py "  ") (py "You drift between worlds. ")
           (py "You rarely settle.") (py " ") 89 46
           Hdisk Hbefore HX Hlead Hc1 Hs1 Htrail Hc2 Hs2 HB1 HB2 Hafter
           later_section_codes later_section_names).
Defined.

(** The whole result for [long_document]. *)
Lemma long_document_maps :
  load_detailed_archetypes_docx (disk_with long_document)
    (py "morrowland 243.docx")
  = Some (Ok ({[py "Low-Low-Low-Low-Low" := py "Calm water.";
                py "High-Low-Medium-High-Low" :=
                  py "You drift between worlds. " ++ [10] ++ py "You rarely settle.";
                py "Medium-Medium-Medium-Medium-Medium" := py "Body."]},
              {[py "Aquashine" := py "Calm water.";
                py "Starlight Wanderer" :=
                  py "You drift between worlds. " ++ [10] ++ py "You rarely settle.";
                py "Second" := py "Body."]})).
Proof. compute_done. Qed.
